(** * Reactive autoscaler: decision engine, batch replay and live driver

    A shallow embedding of [reactivemodel.py] (offline batch replay) and
    [reactive.py] (live control loop).

    Numbers.  Replica counts and batch time buckets are Python [int]s: [Z].
    Request rates are finite Python floats; they are embedded as rationals
    [Q], on which the comparisons of the source are exact and its
    arithmetic is taken without rounding and without overflow: sums and
    weighted averages are exact here.  Statements about a batch run are
    therefore made of the runs that return; a run of the source whose
    bucket sum overflows to infinity raises [KeyError] instead.  The one
    non-finite number of the program, the [float('inf')] scale-up
    threshold of the last table row, has a constructor of its own in
    [threshold].

    Exceptions.  A dictionary access [RPS_THRESHOLDS[k]] on a missing key
    raises [KeyError]; functions that perform one return an [outcome].

    Configuration.  The module constants of [reactivemodel.py] and the
    class attributes of [AutoscalerConfig] in [reactive.py] carry the same
    values; they are gathered in the record [AutoscalerConfig], and
    [default_config] holds the values written in the source. *)

From Stdlib Require Import ZArith QArith Qround Lqa.
From stdpp Require Import gmap strings list sorting.

Local Open Scope Z_scope.

(** ** Numbers *)

(** [x < y] on rates. *)
Definition Qlt_bool (x y : Q) : bool :=
  (Qnum x * QDen y <? Qnum y * QDen x)%Z.

(** A threshold of the table: an integer literal or [float('inf')]. *)
Inductive threshold : Type :=
  | Fin (q : Q)
  | Infinity.

(** [smoothed_rps >= t] *)
Definition rate_ge (x : Q) (t : threshold) : bool :=
  match t with
  | Fin q => Qle_bool q x
  | Infinity => false
  end.

(** [smoothed_rps < t] *)
Definition rate_lt (x : Q) (t : threshold) : bool :=
  match t with
  | Fin q => Qlt_bool x q
  | Infinity => true
  end.

(** [int(x)] on a float: truncation towards zero. *)
Definition Qtrunc (x : Q) : Z :=
  if Qle_bool 0 x then Qfloor x else Qceiling x.

(** ** Exceptions *)

Inductive outcome (A : Type) : Type :=
  | Ok (a : A)
  | KeyError (k : Z).
Arguments Ok {A} a.
Arguments KeyError {A} k.

#[global] Instance outcome_ret : MRet outcome := fun A a => Ok a.
#[global] Instance outcome_bind : MBind outcome := fun A B f m =>
  match m with
  | Ok a => f a
  | KeyError k => KeyError k
  end.

(** ** Ranges *)

(** [range(a, b)] *)
Definition py_range (a b : Z) : list Z := seqZ a (b - a).

(** [range(a, b, -1)] *)
Definition py_range_down (a b : Z) : list Z :=
  (fun i => a - i) <$> seqZ 0 (a - b).

(** ** Configuration *)

Record AutoscalerConfig : Type := {
  COOLDOWN_PERIOD : Z;
  EMA_ALPHA : Q;
  MIN_REPLICAS : Z;
  MAX_REPLICAS : Z;
  RPS_THRESHOLDS : gmap Z (threshold * threshold)
}.

(** The table of the source: replica count to (scale-up, scale-down). *)
Definition default_thresholds : gmap Z (threshold * threshold) :=
  <[1 := (Fin 10, Fin 0)]>
  (<[2 := (Fin 30, Fin 8)]>
  (<[3 := (Fin 60, Fin 25)]>
  (<[4 := (Fin 100, Fin 50)]>
  (<[5 := (Infinity, Fin 90)]> ∅)))).

Definition default_config : AutoscalerConfig := {|
  COOLDOWN_PERIOD := 60;
  EMA_ALPHA := 7 # 10;
  MIN_REPLICAS := 1;
  MAX_REPLICAS := 10;
  RPS_THRESHOLDS := default_thresholds
|}.

(** ** Reasons

    The source returns formatted strings; a constructor stands for each
    format, with the numbers that are printed into it.  Where the two
    files word a message differently, both wordings are given. *)
Inductive reason : Type :=
  (** "RPS x >= up (scale-up threshold)" / "Scale up: RPS x >= up" *)
  | ReasonScaleUp (rps : Q) (up : threshold)
  (** "RPS x exceeds all thresholds" / "Scale to max: RPS x" *)
  | ReasonExceedsAll (rps : Q)
  (** "RPS x < down (scale-down threshold)" / "Scale down: RPS x < down" *)
  | ReasonScaleDown (rps : Q) (down : threshold)
  (** "RPS x below minimum threshold" / "Scale to min: RPS x" *)
  | ReasonBelowMin (rps : Q)
  (** "RPS x within stable range [down, up)" / "Stable: RPS x in range" *)
  | ReasonStable (rps : Q) (down up : threshold)
  (** "No change needed" *)
  | ReasonNoChange
  (** "In cooldown (wait Ns)" / "Cooldown: wait Ns" *)
  | ReasonCooldown (wait : Z)
  (** "Cooldown expired, scaling allowed" / "Cooldown expired" *)
  | ReasonCooldownExpired.

(** ** Hysteresis target computation

    [desired_replicas_with_hysteresis] of [reactivemodel.py] and
    [ReactiveScalingEngine.desired_replicas] of [reactive.py]. *)
Section Engine.
Variable config : AutoscalerConfig.

(** The scale-up scan: [for replicas in range(current + 1, MAX + 1)]. *)
Fixpoint scan_up (smoothed_rps : Q) (scale_up_threshold : threshold)
    (levels : list Z) : outcome (Z * reason) :=
  match levels with
  | [] => Ok (MAX_REPLICAS config, ReasonExceedsAll smoothed_rps)
  | replicas :: rest =>
      match RPS_THRESHOLDS config !! replicas with
      | None => KeyError replicas
      | Some (up_thresh, _) =>
          if rate_lt smoothed_rps up_thresh
          then Ok (replicas, ReasonScaleUp smoothed_rps scale_up_threshold)
          else scan_up smoothed_rps scale_up_threshold rest
      end
  end.

(** The scale-down scan: [for replicas in range(current - 1, MIN - 1, -1)]. *)
Fixpoint scan_down (smoothed_rps : Q) (scale_down_threshold : threshold)
    (levels : list Z) : outcome (Z * reason) :=
  match levels with
  | [] => Ok (MIN_REPLICAS config, ReasonBelowMin smoothed_rps)
  | replicas :: rest =>
      match RPS_THRESHOLDS config !! replicas with
      | None => KeyError replicas
      | Some (_, down_thresh) =>
          if rate_ge smoothed_rps down_thresh || (replicas =? MIN_REPLICAS config)
          then Ok (replicas, ReasonScaleDown smoothed_rps scale_down_threshold)
          else scan_down smoothed_rps scale_down_threshold rest
      end
  end.

Definition desired_replicas (current_replicas : Z) (smoothed_rps : Q)
    : outcome (Z * reason) :=
  match RPS_THRESHOLDS config !! current_replicas with
  | None => KeyError current_replicas
  | Some (scale_up_threshold, scale_down_threshold) =>
      if rate_ge smoothed_rps scale_up_threshold
         && (current_replicas <? MAX_REPLICAS config)
      then scan_up smoothed_rps scale_up_threshold
             (py_range (current_replicas + 1) (MAX_REPLICAS config + 1))
      else if rate_lt smoothed_rps scale_down_threshold
              && (MIN_REPLICAS config <? current_replicas)
      then scan_down smoothed_rps scale_down_threshold
             (py_range_down (current_replicas - 1) (MIN_REPLICAS config - 1))
      else Ok (current_replicas,
               ReasonStable smoothed_rps scale_down_threshold scale_up_threshold)
  end.
End Engine.


(** ** The batch replay: [reactivemodel.py] *)
Module ReactiveModel.

Definition CONTROL_INTERVAL : Z := 30.

(** [(time, replicas, rps, reason)] *)
Definition HistoryEntry : Type := Z * Z * Q * reason.

Record ServiceState : Type := {
  current_replicas : Z;
  raw_rps : Q;
  smoothed_rps : Q;
  last_scale_time : Z;
  scale_history : list HistoryEntry
}.

(** [ServiceState()]: the value the [defaultdict] builds on a miss. *)
Definition new_state : ServiceState := {|
  current_replicas := 1;
  raw_rps := 0;
  smoothed_rps := 0;
  last_scale_time := 0;
  scale_history := []
|}.

Inductive Action : Type := UPSCALE | DOWNSCALE | BLOCKED | NO_CHANGE.

(** One entry of [events], a row of the output table. *)
Record Event : Type := {
  ev_time_bucket : Z;
  ev_service : string;
  ev_raw_rps : Q;
  ev_smoothed_rps : Q;
  ev_prev_replicas : Z;
  ev_new_replicas : Z;
  ev_action : Action;
  ev_reason : reason
}.

(** The variables of [main] that the loop updates. *)
Record Sim : Type := {
  service_states : gmap string ServiceState;
  events : list Event;
  total_scales : Z;
  upscales : Z;
  downscales : Z;
  cooldown_blocks : Z
}.

Definition initial_sim : Sim := {|
  service_states := ∅;
  events := [];
  total_scales := 0;
  upscales := 0;
  downscales := 0;
  cooldown_blocks := 0
|}.

(** A row of the input table.  [None] is a cell that [pd.to_numeric]
    with [errors="coerce"] turns into NaN. *)
Record Row : Type := {
  item : string;
  timestamp : option Q;
  request_rate : option Q
}.

(** [df.dropna(subset=["timestamp", "request_rate"])] *)
Definition dropna (df : list Row) : list (string * Q * Q) :=
  omap (fun r =>
          match timestamp r, request_rate r with
          | Some t, Some v => Some (item r, t, v)
          | _, _ => None
          end) df.

(** [(timestamp // CONTROL_INTERVAL) * CONTROL_INTERVAL] *)
Definition time_bucket (t : Q) : Z :=
  Qfloor (t / inject_Z CONTROL_INTERVAL) * CONTROL_INTERVAL.

(** Order of the keys [(time_bucket, item)]. *)
Definition key_compare (k1 k2 : Z * string) : comparison :=
  match Z.compare k1.1 k2.1 with
  | Eq => String.compare k1.2 k2.2
  | c => c
  end.

(** Adds one row to the groups, which are kept in ascending key order. *)
Fixpoint add_to_group (k : Z * string) (v : Q)
    (groups : list (Z * string * Q)) : list (Z * string * Q) :=
  match groups with
  | [] => [(k, v)]
  | (k', total) :: rest =>
      match key_compare k k' with
      | Eq => (k', (total + v)%Q) :: rest
      | Lt => (k, v) :: groups
      | Gt => (k', total) :: add_to_group k v rest
      end
  end.

(** [df.groupby(["time_bucket", "item"])["request_rate"].sum()] followed
    by [sort_values(["time_bucket", "item"])]: one row per key, with the
    sum of the rates of the key's rows, in ascending key order. *)
Definition grouped (rows : list (string * Q * Q)) : list (Z * string * Q) :=
  foldl (fun groups r =>
           let '(it, t, v) := r in add_to_group (time_bucket t, it) v groups)
        [] rows.

Section WithConfig.
Variable config : AutoscalerConfig.

Definition update_smoothed_rps (state : ServiceState) (new_rps : Q)
    : ServiceState * Q :=
  let smoothed :=
    if Qeq_bool (smoothed_rps state) 0
    then new_rps
    else (EMA_ALPHA config * new_rps
          + (1 - EMA_ALPHA config) * smoothed_rps state)%Q in
  ({| current_replicas := current_replicas state;
      raw_rps := new_rps;
      smoothed_rps := smoothed;
      last_scale_time := last_scale_time state;
      scale_history := scale_history state |},
   smoothed).

Definition desired_replicas_with_hysteresis
    (current_replicas : Z) (smoothed_rps : Q) : outcome (Z * reason) :=
  desired_replicas config current_replicas smoothed_rps.

Definition should_scale (state : ServiceState) (current_time : Z)
    (desired : Z) : bool * reason :=
  if desired =? current_replicas state
  then (true, ReasonNoChange)
  else
    let time_since_last_scale := current_time - last_scale_time state in
    if time_since_last_scale <? COOLDOWN_PERIOD config
    then (false,
          ReasonCooldown (COOLDOWN_PERIOD config - time_since_last_scale))
    else (true, ReasonCooldownExpired).

(** [state.current_replicas = desired; state.last_scale_time = t] *)
Definition apply_scale (state : ServiceState) (desired t : Z)
    : ServiceState :=
  {| current_replicas := desired;
     raw_rps := raw_rps state;
     smoothed_rps := smoothed_rps state;
     last_scale_time := t;
     scale_history := scale_history state |}.

(** [state.scale_history.append(entry)] *)
Definition record_history (state : ServiceState) (entry : HistoryEntry)
    : ServiceState :=
  {| current_replicas := current_replicas state;
     raw_rps := raw_rps state;
     smoothed_rps := smoothed_rps state;
     last_scale_time := last_scale_time state;
     scale_history := scale_history state ++ [entry] |}.

(** The body of the loop [for _, row in grouped.iterrows()]. *)
Definition process_row (sim : Sim) (row : Z * string * Q) : outcome Sim :=
  let '(time_bucket, service, raw_rps) := row in
  let state := default new_state (service_states sim !! service) in
  let '(state, smoothed_rps) := update_smoothed_rps state raw_rps in
  '(desired, scaling_reason) ←
    desired_replicas_with_hysteresis (current_replicas state) smoothed_rps;
  let '(can_scale, cooldown_reason) :=
    should_scale state time_bucket desired in
  let prev_replicas := current_replicas state in
  let '(state, action, reason, up, down, blocked) :=
    if prev_replicas <? desired then
      if can_scale
      then (apply_scale state desired time_bucket,
            UPSCALE, scaling_reason, 1, 0, 0)
      else (state, BLOCKED, cooldown_reason, 0, 0, 1)
    else if desired <? prev_replicas then
      if can_scale
      then (apply_scale state desired time_bucket,
            DOWNSCALE, scaling_reason, 0, 1, 0)
      else (state, BLOCKED, cooldown_reason, 0, 0, 1)
    else (state, NO_CHANGE, scaling_reason, 0, 0, 0) in
  let state :=
    record_history state
      (time_bucket, current_replicas state, smoothed_rps, reason) in
  Ok {| service_states := <[service := state]> (service_states sim);
        events := events sim ++
          [ {| ev_time_bucket := time_bucket;
               ev_service := service;
               ev_raw_rps := raw_rps;
               ev_smoothed_rps := smoothed_rps;
               ev_prev_replicas := prev_replicas;
               ev_new_replicas := current_replicas state;
               ev_action := action;
               ev_reason := reason |} ];
        total_scales := total_scales sim + up + down;
        upscales := upscales sim + up;
        downscales := downscales sim + down;
        cooldown_blocks := cooldown_blocks sim + blocked |}.

(** The loop over the grouped rows; an exception ends the run. *)
Fixpoint run (sim : Sim) (rows : list (Z * string * Q)) : outcome Sim :=
  match rows with
  | [] => Ok sim
  | row :: rest => sim' ← process_row sim row; run sim' rest
  end.

Definition main (df : list Row) : outcome Sim :=
  run initial_sim (grouped (dropna df)).
End WithConfig.

End ReactiveModel.

(** ** The live control loop: [reactive.py] *)
Module Reactive.

Inductive Action : Type := UPSCALE | DOWNSCALE.

(** One dictionary appended to [scale_history]. *)
Record ScaleRecord : Type := {
  sr_timestamp : Q;
  sr_action : Action;
  sr_from : Z;
  sr_to : Z;
  sr_rps : Q;
  sr_reason : reason
}.

Record ServiceState : Type := {
  service_name : string;
  current_replicas : Z;
  raw_rps : Q;
  smoothed_rps : Q;
  last_scale_time : Q;
  scale_history : list ScaleRecord
}.

(** [ServiceState(service_name="")]: the default of [service_states]. *)
Definition new_state : ServiceState := {|
  service_name := "";
  current_replicas := 1;
  raw_rps := 0;
  smoothed_rps := 0;
  last_scale_time := 0;
  scale_history := []
|}.

(** What the collaborators answer during one call of [process_service]:
    the metrics source, the control plane and the clock. *)
Record Responses : Type := {
  get_rps : option Q;
  get_current_replicas : option Z;
  scale_deployment : Z -> bool;
  time_gate : Q;
  time_applied : Q;
  time_history : Q
}.

(** What one call of [process_service] leaves behind: the states, the
    replica count it asked the control plane to set (if it did), and the
    key of the [KeyError] it raised (if it did). *)
Record Step : Type := {
  step_states : gmap string ServiceState;
  step_scale_request : option Z;
  step_raised : option Z
}.

Section WithConfig.
Variable config : AutoscalerConfig.

Definition update_smoothed_rps (state : ServiceState) (new_rps : Q)
    : ServiceState * Q :=
  let smoothed :=
    if Qeq_bool (smoothed_rps state) 0
    then new_rps
    else (EMA_ALPHA config * new_rps
          + (1 - EMA_ALPHA config) * smoothed_rps state)%Q in
  ({| service_name := service_name state;
      current_replicas := current_replicas state;
      raw_rps := new_rps;
      smoothed_rps := smoothed;
      last_scale_time := last_scale_time state;
      scale_history := scale_history state |},
   smoothed).

(** [time.time()] is passed in as [now]. *)
Definition should_scale (state : ServiceState) (now : Q) (desired : Z)
    : bool * reason :=
  if desired =? current_replicas state
  then (true, ReasonNoChange)
  else
    let time_since_last_scale := (now - last_scale_time state)%Q in
    if Qlt_bool time_since_last_scale (inject_Z (COOLDOWN_PERIOD config))
    then (false,
          ReasonCooldown
            (Qtrunc (inject_Z (COOLDOWN_PERIOD config)
                     - time_since_last_scale)%Q))
    else (true, ReasonCooldownExpired).

Definition set_service_name (state : ServiceState) (name : string)
    : ServiceState :=
  {| service_name := name;
     current_replicas := current_replicas state;
     raw_rps := raw_rps state;
     smoothed_rps := smoothed_rps state;
     last_scale_time := last_scale_time state;
     scale_history := scale_history state |}.

Definition set_current_replicas (state : ServiceState) (n : Z)
    : ServiceState :=
  {| service_name := service_name state;
     current_replicas := n;
     raw_rps := raw_rps state;
     smoothed_rps := smoothed_rps state;
     last_scale_time := last_scale_time state;
     scale_history := scale_history state |}.

(** The three updates after a successful actuation. *)
Definition apply_scale (state : ServiceState) (desired : Z) (t : Q)
    (entry : ScaleRecord) : ServiceState :=
  {| service_name := service_name state;
     current_replicas := desired;
     raw_rps := raw_rps state;
     smoothed_rps := smoothed_rps state;
     last_scale_time := t;
     scale_history := scale_history state ++ [entry] |}.

Definition process_service (states : gmap string ServiceState)
    (service : string) (world : Responses) : Step :=
  let state := default new_state (states !! service) in
  let state := set_service_name state service in
  match get_rps world with
  | None =>
      {| step_states := <[service := state]> states;
         step_scale_request := None; step_raised := None |}
  | Some rps =>
      let '(state, smoothed_rps) := update_smoothed_rps state rps in
      match get_current_replicas world with
      | None =>
          {| step_states := <[service := state]> states;
             step_scale_request := None; step_raised := None |}
      | Some current_k8s_replicas =>
          let state := set_current_replicas state current_k8s_replicas in
          match desired_replicas config (current_replicas state)
                  smoothed_rps with
          | KeyError k =>
              {| step_states := <[service := state]> states;
                 step_scale_request := None; step_raised := Some k |}
          | Ok (desired, reason) =>
              let '(can_scale, cooldown_msg) :=
                should_scale state (time_gate world) desired in
              if negb (desired =? current_replicas state) then
                let action :=
                  if current_replicas state <? desired
                  then UPSCALE else DOWNSCALE in
                if can_scale then
                  if scale_deployment world desired then
                    let entry :=
                      {| sr_timestamp := time_history world;
                         sr_action := action;
                         sr_from := current_k8s_replicas;
                         sr_to := desired;
                         sr_rps := smoothed_rps;
                         sr_reason := reason |} in
                    {| step_states :=
                         <[service := apply_scale state desired
                                        (time_applied world) entry]> states;
                       step_scale_request := Some desired;
                       step_raised := None |}
                  else
                    {| step_states := <[service := state]> states;
                       step_scale_request := Some desired;
                       step_raised := None |}
                else
                  {| step_states := <[service := state]> states;
                     step_scale_request := None; step_raised := None |}
              else
                {| step_states := <[service := state]> states;
                   step_scale_request := None; step_raised := None |}
          end
      end
  end.

(** What an iteration retains of one call of [process_service]: the service,
    the replica count it asked the control plane to set (if it did), and the
    key of the [KeyError] caught by the [try] (if one was raised). *)
Record ServiceReport : Type := {
  report_service : string;
  report_scale_request : option Z;
  report_raised : option Z
}.

(** [control_loop_iteration].  [deployments] holds the names that
    [list_deployments()] returned, each with what the collaborators answer
    while it is processed; on an empty list the function returns at once.
    An exception raised for one service is caught and the loop goes on. *)
Definition control_loop_iteration (states : gmap string ServiceState)
    (deployments : list (string * Responses))
    : gmap string ServiceState * list ServiceReport :=
  foldl (fun acc call =>
           let '(states, reports) := acc in
           let '(service, world) := call in
           let step := process_service states service world in
           (step_states step,
            reports ++ [ {| report_service := service;
                            report_scale_request := step_scale_request step;
                            report_raised := step_raised step |} ]))
        (states, []) deployments.
End WithConfig.

End Reactive.


(** ** Vocabulary of the statements *)

(** The scale-up threshold of level [r] strictly exceeds the rate [x]. *)
Definition up_exceeds (config : AutoscalerConfig) (r : Z) (x : Q) : Prop :=
  exists up down,
    RPS_THRESHOLDS config !! r = Some (up, down) /\ rate_lt x up = true.

(** The states after each call when [samples] are fed, one by one, through
    a smoothing update starting from [state]. *)
Fixpoint feed {St : Type} (update : St -> Q -> St * Q) (state : St)
    (samples : list Q) : list St :=
  match samples with
  | [] => []
  | s :: rest => let state' := (update state s).1 in
                 state' :: feed update state' rest
  end.

(** The recurrence of the smoothed values: the first one is the first
    sample; a later one restarts from the sample when the previous smoothed
    value is zero (the mark of a state without history) and is the weighted
    average otherwise. *)
Definition ema_recurrence (alpha : Q) (samples smoothed : list Q) : Prop :=
  length smoothed = length samples /\
  forall (i : nat) s v,
    samples !! i = Some s -> smoothed !! i = Some v ->
    match i with
    | O => v = s
    | S j => forall prev, smoothed !! j = Some prev ->
               if Qeq_bool prev 0 then v = s
               else v = (alpha * s + (1 - alpha) * prev)%Q
    end.

(** A scaling action that the batch driver applied to the state: the
    replica count was changed and the last-scale time updated. *)
Definition applied (e : ReactiveModel.Event) : Prop :=
  ReactiveModel.ev_action e = ReactiveModel.UPSCALE \/
  ReactiveModel.ev_action e = ReactiveModel.DOWNSCALE.

(** The rates of the cleaned rows of entity [it] that fall in bucket [b],
    in row order. *)
Definition rates_of (b : Z) (it : string) (rows : list (string * Q * Q))
    : list Q :=
  omap (fun r : string * Q * Q =>
          let '(it', t, v) := r in
          if decide (ReactiveModel.time_bucket t = b /\ it' = it)
          then Some v else None) rows.

Definition Qsum (l : list Q) : Q := foldr Qplus 0%Q l.

(** The (bucket, entity, rate) that an event reports. *)
Definition event_input (e : ReactiveModel.Event) : Z * string * Q :=
  (ReactiveModel.ev_time_bucket e, ReactiveModel.ev_service e,
   ReactiveModel.ev_raw_rps e).

(** The state that [service_states[s]] yields: the stored one, or a new
    one on a miss. *)
Definition state_of (sim : ReactiveModel.Sim) (s : string)
    : ReactiveModel.ServiceState :=
  default ReactiveModel.new_state (ReactiveModel.service_states sim !! s).

(** Every tracked replica count is a key of the source's table. *)
Definition replicas_in_table (sim : ReactiveModel.Sim) : Prop :=
  forall s st, ReactiveModel.service_states sim !! s = Some st ->
               1 <= ReactiveModel.current_replicas st <= 5.

(** Applied actions of one service lie a cooldown period apart. *)
Definition separated (cooldown : Z) (evs : list ReactiveModel.Event) : Prop :=
  forall (i j : nat) ei ej,
    (i < j)%nat -> evs !! i = Some ei -> evs !! j = Some ej ->
    ReactiveModel.ev_service ei = ReactiveModel.ev_service ej ->
    applied ei -> applied ej ->
    ReactiveModel.ev_time_bucket ei + cooldown
      <= ReactiveModel.ev_time_bucket ej.


(** Kept by the batch loop: an applied action is not later than the
    last-scale time of its service, and applied actions are separated. *)
Definition cooldown_inv (config : AutoscalerConfig) (sim : ReactiveModel.Sim)
    : Prop :=
  (forall e, e ∈ ReactiveModel.events sim -> applied e ->
     ReactiveModel.ev_time_bucket e
       <= ReactiveModel.last_scale_time
            (state_of sim (ReactiveModel.ev_service e)))
  /\ separated (COOLDOWN_PERIOD config) (ReactiveModel.events sim).


(** Strict order of the keys [(time_bucket, item)]. *)
Definition key_lt (k1 k2 : Z * string) : Prop :=
  ReactiveModel.key_compare k1 k2 = Lt.

(** Kept while the rows are grouped: the keys ascend strictly, a key
    without a row is absent, and a key with rows holds their sum. *)
Definition grouped_inv (rows : list (string * Q * Q))
    (groups : list (Z * string * Q)) : Prop :=
  StronglySorted key_lt (groups.*1) /\
  forall b it,
    (rates_of b it rows = [] -> (b, it) ∉ groups.*1) /\
    (rates_of b it rows <> [] ->
     exists total, ((b, it), total) ∈ groups /\
                   (total == Qsum (rates_of b it rows))%Q).

(** ** Vocabulary of the further properties *)

(** The table has a row for every replica count of the configured range. *)
Definition table_complete (config : AutoscalerConfig) : Prop :=
  forall k, MIN_REPLICAS config <= k <= MAX_REPLICAS config ->
            is_Some (RPS_THRESHOLDS config !! k).

(** The rate [x] is not below the scale-down threshold of level [r]. *)
Definition down_met (config : AutoscalerConfig) (r : Z) (x : Q) : Prop :=
  exists up down,
    RPS_THRESHOLDS config !! r = Some (up, down) /\ rate_ge x down = true.

#[global] Instance Action_eq_dec : EqDecision ReactiveModel.Action.
Proof. solve_decision. Defined.

(** Number of events of one action kind. *)
Definition count_action (a : ReactiveModel.Action)
    (evs : list ReactiveModel.Event) : Z :=
  Z.of_nat (length (filter (fun e => ReactiveModel.ev_action e = a) evs)).

(** The events of one service, in the order of the log. *)
Definition events_of (s : string) (evs : list ReactiveModel.Event)
    : list ReactiveModel.Event :=
  filter (fun e => ReactiveModel.ev_service e = s) evs.

(** The per-service machine that a log is checked against: its state is
    (replica count, time of the last applied action). *)
Definition event_step (st : Z * Z) (e : ReactiveModel.Event) : Z * Z :=
  match ReactiveModel.ev_action e with
  | ReactiveModel.UPSCALE | ReactiveModel.DOWNSCALE =>
      (ReactiveModel.ev_new_replicas e, ReactiveModel.ev_time_bucket e)
  | ReactiveModel.BLOCKED | ReactiveModel.NO_CHANGE => st
  end.

(** An event is a legal move from [st]: it starts at the tracked replica
    count; an applied action changes the count in the direction of its kind
    and comes a cooldown period after the last one; a blocked one changes
    nothing and comes earlier; no change changes nothing. *)
Definition event_ok (cooldown : Z) (st : Z * Z) (e : ReactiveModel.Event)
    : Prop :=
  ReactiveModel.ev_prev_replicas e = st.1 /\
  match ReactiveModel.ev_action e with
  | ReactiveModel.UPSCALE =>
      st.1 < ReactiveModel.ev_new_replicas e /\
      st.2 + cooldown <= ReactiveModel.ev_time_bucket e
  | ReactiveModel.DOWNSCALE =>
      ReactiveModel.ev_new_replicas e < st.1 /\
      st.2 + cooldown <= ReactiveModel.ev_time_bucket e
  | ReactiveModel.BLOCKED =>
      ReactiveModel.ev_new_replicas e = st.1 /\
      ReactiveModel.ev_time_bucket e < st.2 + cooldown
  | ReactiveModel.NO_CHANGE =>
      ReactiveModel.ev_new_replicas e = st.1
  end.

Fixpoint trace_ok (cooldown : Z) (st : Z * Z)
    (evs : list ReactiveModel.Event) : Prop :=
  match evs with
  | [] => True
  | e :: rest =>
      event_ok cooldown st e /\ trace_ok cooldown (event_step st e) rest
  end.

(** The tuple that the batch loop appends to [scale_history] for an event. *)
Definition event_entry (e : ReactiveModel.Event) : ReactiveModel.HistoryEntry :=
  (ReactiveModel.ev_time_bucket e, ReactiveModel.ev_new_replicas e,
   ReactiveModel.ev_smoothed_rps e, ReactiveModel.ev_reason e).

(** A row that survives [dropna]. *)
Definition numeric_row (r : ReactiveModel.Row) : Prop :=
  is_Some (ReactiveModel.timestamp r) /\
  is_Some (ReactiveModel.request_rate r).

#[global] Instance numeric_row_dec (r : ReactiveModel.Row) :
  Decision (numeric_row r).
Proof. unfold numeric_row. apply _. Defined.

(** Kept by the batch loop: per service, the log is a legal run of the
    machine from (1, 0) and ends in the tracked state, whose history is the
    log of the service. *)
Definition trace_inv (config : AutoscalerConfig) (sim : ReactiveModel.Sim)
    : Prop :=
  forall s,
    trace_ok (COOLDOWN_PERIOD config) (1, 0)
      (events_of s (ReactiveModel.events sim)) /\
    foldl event_step (1, 0) (events_of s (ReactiveModel.events sim))
      = (ReactiveModel.current_replicas (state_of sim s),
         ReactiveModel.last_scale_time (state_of sim s)) /\
    ReactiveModel.scale_history (state_of sim s)
      = event_entry <$> events_of s (ReactiveModel.events sim) /\
    ReactiveModel.smoothed_rps (state_of sim s)
      = default 0%Q (ReactiveModel.ev_smoothed_rps <$>
                       last (events_of s (ReactiveModel.events sim))) /\
    ReactiveModel.raw_rps (state_of sim s)
      = default 0%Q (ReactiveModel.ev_raw_rps <$>
                       last (events_of s (ReactiveModel.events sim))).

(** Kept by the batch loop: the counters of the summary count the events. *)
Definition counters_inv (sim : ReactiveModel.Sim) : Prop :=
  ReactiveModel.upscales sim
    = count_action ReactiveModel.UPSCALE (ReactiveModel.events sim) /\
  ReactiveModel.downscales sim
    = count_action ReactiveModel.DOWNSCALE (ReactiveModel.events sim) /\
  ReactiveModel.cooldown_blocks sim
    = count_action ReactiveModel.BLOCKED (ReactiveModel.events sim) /\
  ReactiveModel.total_scales sim
    = ReactiveModel.upscales sim + ReactiveModel.downscales sim.

(** The action and the reason of an event are those of the hysteresis
    decision at the event's previous replica count and smoothed rate: an
    applied action moves to the decided count and reports the decision's
    reason; a blocked one had decided another count and reports the
    cooldown; no change had decided the same count. *)
Definition decision_ok (config : AutoscalerConfig) (e : ReactiveModel.Event)
    : Prop :=
  exists d r,
    desired_replicas config (ReactiveModel.ev_prev_replicas e)
      (ReactiveModel.ev_smoothed_rps e) = Ok (d, r) /\
    match ReactiveModel.ev_action e with
    | ReactiveModel.UPSCALE | ReactiveModel.DOWNSCALE =>
        ReactiveModel.ev_new_replicas e = d /\ ReactiveModel.ev_reason e = r
    | ReactiveModel.BLOCKED =>
        d <> ReactiveModel.ev_prev_replicas e /\
        exists wait, ReactiveModel.ev_reason e = ReasonCooldown wait
    | ReactiveModel.NO_CHANGE =>
        d = ReactiveModel.ev_prev_replicas e /\ ReactiveModel.ev_reason e = r
    end.

(** The smoothed rates of a service's events are the smoothing of its raw
    rates from a fresh state. *)
Definition smoothed_column (config : AutoscalerConfig)
    (evs : list ReactiveModel.Event) : Prop :=
  ReactiveModel.ev_smoothed_rps <$> evs
  = ReactiveModel.smoothed_rps <$>
      feed (ReactiveModel.update_smoothed_rps config) ReactiveModel.new_state
        (ReactiveModel.ev_raw_rps <$> evs).

(** The replica counts of an event are rows of the source's table. *)
Definition event_in_table (e : ReactiveModel.Event) : Prop :=
  1 <= ReactiveModel.ev_prev_replicas e <= 5 /\
  1 <= ReactiveModel.ev_new_replicas e <= 5.

(** A state of the live driver carries the same replica count, rates and
    last-scale time as a state of the batch driver. *)
Definition corresponds (batch : ReactiveModel.ServiceState)
    (live : Reactive.ServiceState) : Prop :=
  Reactive.current_replicas live = ReactiveModel.current_replicas batch /\
  Reactive.raw_rps live = ReactiveModel.raw_rps batch /\
  Reactive.smoothed_rps live = ReactiveModel.smoothed_rps batch /\
  Reactive.last_scale_time live
    = inject_Z (ReactiveModel.last_scale_time batch).

(** The scale-up scan from [c] does not run off the table: every level of
    (c, MAX_REPLICAS] that it reaches, all levels before it having a
    threshold that does not exceed the rate, has a row. *)
Definition scan_rows_present (config : AutoscalerConfig) (c : Z) (x : Q)
    : Prop :=
  forall k, c < k <= MAX_REPLICAS config ->
    (forall j, c < j < k -> ~ up_exceeds config j x) ->
    is_Some (RPS_THRESHOLDS config !! k).

(** The smoothing update is called with the raw rate of the event: for
    every event of the log and every state that holds the smoothed rate
    of the service's previous event (0, the value of a new state, when
    there is none), the smoothed rate of the event is what
    [update_smoothed_rps] returns for that state and the event's raw
    rate. *)
Definition engine_fed (config : AutoscalerConfig)
    (evs : list ReactiveModel.Event) : Prop :=
  forall (i : nat) e (st : ReactiveModel.ServiceState),
    evs !! i = Some e ->
    ReactiveModel.smoothed_rps st
    = default 0%Q
        (ReactiveModel.ev_smoothed_rps <$>
           last (events_of (ReactiveModel.ev_service e) (take i evs))) ->
    ReactiveModel.ev_smoothed_rps e
    = (ReactiveModel.update_smoothed_rps config st
         (ReactiveModel.ev_raw_rps e)).2.

(** Floats below this bound hold integers exactly. *)
Definition exact_integer_bound : Z := 2 ^ 53.

(** ** Concrete inputs of the examples *)

(** A table of three rows, all with finite thresholds. *)
Definition three_level_config : AutoscalerConfig :=
  {| COOLDOWN_PERIOD := 60;
     EMA_ALPHA := 7 # 10;
     MIN_REPLICAS := 1;
     MAX_REPLICAS := 3;
     RPS_THRESHOLDS :=
       <[1 := (Fin 10, Fin 0)]>
       (<[2 := (Fin 30, Fin 8)]>
       (<[3 := (Fin 60, Fin 25)]> ∅)) |}.

(** One service: a scale-up at 60, a surge blocked at 90 and applied at
    120. *)
Definition cooldown_dataset : list ReactiveModel.Row :=
  [ {| ReactiveModel.item := "web"; ReactiveModel.timestamp := Some 61%Q;
       ReactiveModel.request_rate := Some 15%Q |};
    {| ReactiveModel.item := "web"; ReactiveModel.timestamp := Some 95%Q;
       ReactiveModel.request_rate := Some 100%Q |};
    {| ReactiveModel.item := "web"; ReactiveModel.timestamp := Some 125%Q;
       ReactiveModel.request_rate := Some 100%Q |} ].

Definition cooldown_sim : ReactiveModel.Sim :=
  match ReactiveModel.main default_config cooldown_dataset with
  | Ok sim => sim
  | KeyError _ => ReactiveModel.initial_sim
  end.

(** The source's table with [MAX_REPLICAS] set to its last row. *)
Definition five_level_config : AutoscalerConfig :=
  {| COOLDOWN_PERIOD := 60;
     EMA_ALPHA := 7 # 10;
     MIN_REPLICAS := 1;
     MAX_REPLICAS := 5;
     RPS_THRESHOLDS := default_thresholds |}.


(** Two rows of "web" in bucket 0 and one row of "api" in bucket 60. *)
Definition sample_dataset : list ReactiveModel.Row :=
  [ {| ReactiveModel.item := "web"; ReactiveModel.timestamp := Some 5%Q;
       ReactiveModel.request_rate := Some 3%Q |};
    {| ReactiveModel.item := "api"; ReactiveModel.timestamp := Some 61%Q;
       ReactiveModel.request_rate := Some 40%Q |};
    {| ReactiveModel.item := "web"; ReactiveModel.timestamp := Some 7%Q;
       ReactiveModel.request_rate := Some (9 # 2)%Q |} ].

Definition sample_sim : ReactiveModel.Sim :=
  match ReactiveModel.main default_config sample_dataset with
  | Ok sim => sim
  | KeyError _ => ReactiveModel.initial_sim
  end.

(** The metrics source reports 20 requests per second and the replica
    lookup of the control plane fails. *)
Definition lookup_fails : Reactive.Responses :=
  {| Reactive.get_rps := Some 20%Q;
     Reactive.get_current_replicas := None;
     Reactive.scale_deployment := fun _ => true;
     Reactive.time_gate := 1000;
     Reactive.time_applied := 1000;
     Reactive.time_history := 1000 |}.

(** The metrics source reports 15 requests per second, the control plane
    one replica, and it accepts every request. *)
Definition surge_at_one : Reactive.Responses :=
  {| Reactive.get_rps := Some 15%Q;
     Reactive.get_current_replicas := Some 1;
     Reactive.scale_deployment := fun _ => true;
     Reactive.time_gate := 1000;
     Reactive.time_applied := 1001;
     Reactive.time_history := 1002 |}.

(** As [surge_at_one], with both clock readings at time 1000. *)
Definition replay_at_1000 : Reactive.Responses :=
  {| Reactive.get_rps := Some 15%Q;
     Reactive.get_current_replicas := Some 1;
     Reactive.scale_deployment := fun _ => true;
     Reactive.time_gate := inject_Z 1000;
     Reactive.time_applied := inject_Z 1000;
     Reactive.time_history := 1002 |}.

(** The batch loop after the single row (1000, "web", 15). *)
Definition replay_sim : ReactiveModel.Sim :=
  match ReactiveModel.process_row default_config ReactiveModel.initial_sim
          (1000, "web"%string, 15%Q) with
  | Ok sim => sim
  | KeyError _ => ReactiveModel.initial_sim
  end.

(** A service that has been observed before. *)
Definition tracked_state : Reactive.ServiceState :=
  {| Reactive.service_name := "web";
     Reactive.current_replicas := 2;
     Reactive.raw_rps := 10;
     Reactive.smoothed_rps := 10;
     Reactive.last_scale_time := 500;
     Reactive.scale_history := [] |}.

(** * Properties *)

(** ** Comparisons on rates *)

Lemma Qlt_bool_iff (x y : Q) : Qlt_bool x y = true <-> (x < y)%Q.
Proof. unfold Qlt_bool, Qlt. apply Z.ltb_lt. Qed.

Lemma Qlt_bool_spec (x y : Q) : reflect (x < y)%Q (Qlt_bool x y).
Proof. apply iff_reflect. symmetry. apply Qlt_bool_iff. Qed.

Lemma Qle_bool_spec (x y : Q) : reflect (x <= y)%Q (Qle_bool x y).
Proof. apply iff_reflect. symmetry. apply Qle_bool_iff. Qed.

Lemma Qeq_bool_spec (x y : Q) : reflect (x == y)%Q (Qeq_bool x y).
Proof. apply iff_reflect. symmetry. apply Qeq_bool_iff. Qed.

(** Case analysis on every rate comparison of the goal. *)
Ltac rate_cases :=
  repeat match goal with
    | |- context [Qle_bool ?a ?b] =>
        destruct (Qle_bool_spec a b); cbn [andb orb]
    | |- context [Qlt_bool ?a ?b] =>
        destruct (Qlt_bool_spec a b); cbn [andb orb]
    end.

(** ** The threshold table of the source *)

Lemma default_thresholds_dom (k : Z) :
  is_Some (default_thresholds !! k) <-> 1 <= k <= 5.
Proof.
  unfold default_thresholds. split.
  - intros [v Hv].
    destruct (decide (1 <= k <= 5)) as [|Hn]; [done|].
    rewrite !lookup_insert_ne, lookup_empty in Hv by lia. done.
  - intros Hk.
    assert (k = 1 \/ k = 2 \/ k = 3 \/ k = 4 \/ k = 5) as Hc by lia.
    destruct Hc as [->|[->|[->|[->| ->]]]]; vm_compute; eauto.
Qed.

Lemma thr_1 : default_thresholds !! 1 = Some (Fin 10, Fin 0).
Proof. reflexivity. Qed.
Lemma thr_2 : default_thresholds !! 2 = Some (Fin 30, Fin 8).
Proof. reflexivity. Qed.
Lemma thr_3 : default_thresholds !! 3 = Some (Fin 60, Fin 25).
Proof. reflexivity. Qed.
Lemma thr_4 : default_thresholds !! 4 = Some (Fin 100, Fin 50).
Proof. reflexivity. Qed.
Lemma thr_5 : default_thresholds !! 5 = Some (Infinity, Fin 90).
Proof. reflexivity. Qed.

Lemma thr_none (k : Z) : ~ (1 <= k <= 5) -> default_thresholds !! k = None.
Proof.
  intros Hk. apply eq_None_not_Some. by rewrite default_thresholds_dom.
Qed.

(** Unfolds the hysteresis computation of the source configuration at a
    literal replica count, leaving the rate comparisons. *)
Ltac eval_ranges :=
  repeat match goal with
    | |- context [py_range ?a ?b] =>
        let l := eval vm_compute in (py_range a b) in
        change (py_range a b) with l
    | |- context [py_range_down ?a ?b] =>
        let l := eval vm_compute in (py_range_down a b) in
        change (py_range_down a b) with l
    end.

Ltac unfold_desired :=
  unfold desired_replicas;
  cbn [RPS_THRESHOLDS MAX_REPLICAS MIN_REPLICAS default_config];
  eval_ranges;
  repeat first
    [ rewrite thr_1 | rewrite thr_2 | rewrite thr_3 | rewrite thr_4
    | rewrite thr_5
    | progress cbn [scan_up scan_down rate_lt rate_ge andb orb
                    RPS_THRESHOLDS MAX_REPLICAS MIN_REPLICAS default_config
                    Z.ltb Z.eqb Z.compare Pos.compare Pos.compare_cont
                    Pos.eqb] ].

Lemma table_domain_cases (c : Z) :
  is_Some (default_thresholds !! c) ->
  c = 1 \/ c = 2 \/ c = 3 \/ c = 4 \/ c = 5.
Proof. rewrite default_thresholds_dom. lia. Qed.

(** ** Hysteresis: the computation returns on the table's domain *)

Lemma desired_replicas_in_table (c : Z) (x : Q) :
  is_Some (default_thresholds !! c) ->
  exists d r, desired_replicas default_config c x = Ok (d, r) /\ 1 <= d <= 5.
Proof.
  intros Hc. apply table_domain_cases in Hc.
  destruct Hc as [->|[->|[->|[->| ->]]]]; unfold_desired; rate_cases;
    eexists _, _; (split; [reflexivity | lia]).
Qed.

Lemma desired_replicas_outside_table (c : Z) (x : Q) :
  ~ (1 <= c <= 5) -> desired_replicas default_config c x = KeyError c.
Proof.
  intros Hc. unfold desired_replicas. cbn [RPS_THRESHOLDS default_config].
  by rewrite thr_none.
Qed.

(** C4, at the failing input: with 6 replicas, inside the configured range
    [MIN_REPLICAS, MAX_REPLICAS] = [1, 10], and rate 0 the computation does
    not return a replica count: the table lookup raises [KeyError]. *)
Theorem desired_replicas_raises_at_6 :
  MIN_REPLICAS default_config <= 6 <= MAX_REPLICAS default_config /\
  (0 <= 0)%Q /\
  desired_replicas default_config 6 0 = KeyError 6.
Proof.
  split; [cbn; lia|]. split; [lra|].
  apply desired_replicas_outside_table. lia.
Qed.

(** ** Hysteresis: the scale-up scan *)

Lemma scan_up_first (config : AutoscalerConfig) (x : Q) (t : threshold)
    (levels : list Z) (r : Z) (reason0 : reason) :
  scan_up config x t levels = Ok (r, reason0) ->
  (exists i : nat,
      levels !! i = Some r /\ up_exceeds config r x /\
      forall (j : nat) r', (j < i)%nat -> levels !! j = Some r' ->
                           ~ up_exceeds config r' x)
  \/ (r = MAX_REPLICAS config /\
      forall r', r' ∈ levels -> ~ up_exceeds config r' x).
Proof.
  induction levels as [|l levels IH]; cbn [scan_up].
  - intros [= <- _]. right. split; [done|]. intros r' Hr'. by apply elem_of_nil in Hr'.
  - destruct (RPS_THRESHOLDS config !! l) as [[up down]|] eqn:Hl; [|done].
    destruct (rate_lt x up) eqn:Hlt.
    + intros [= <- _]. left. exists 0%nat. split; [done|]. split.
      * by exists up, down.
      * intros j r' Hj. lia.
    + intros Hscan. assert (~ up_exceeds config l x) as Hnot.
      { intros (up' & down' & Hl' & Hlt'). congruence. }
      destruct (IH Hscan) as [(i & Hi & Hex & Hmin)|[-> Hall]].
      * left. exists (S i). split; [done|]. split; [done|].
        intros [|j] r' Hj Hr'; cbn in Hr'.
        -- by injection Hr' as <-.
        -- apply (Hmin j); [lia|done].
      * right. split; [done|]. intros r' [->|Hr']%elem_of_cons; auto.
Qed.

Lemma desired_replicas_scale_up (config : AutoscalerConfig) (c : Z) (x : Q)
    (up down : threshold) (r : Z) (reason0 : reason) :
  RPS_THRESHOLDS config !! c = Some (up, down) ->
  rate_ge x up = true ->
  c < MAX_REPLICAS config ->
  desired_replicas config c x = Ok (r, reason0) ->
  c < r <= MAX_REPLICAS config /\
  ((up_exceeds config r x /\
    forall r', c < r' < r -> ~ up_exceeds config r' x)
   \/ (r = MAX_REPLICAS config /\
       forall r', c < r' <= MAX_REPLICAS config -> ~ up_exceeds config r' x)).
Proof.
  intros Hc Hge Hmax. unfold desired_replicas. rewrite Hc, Hge.
  assert ((c <? MAX_REPLICAS config) = true) as -> by (by apply Z.ltb_lt).
  cbn [andb]. unfold py_range. intros Hscan.
  apply scan_up_first in Hscan as [(i & Hi & Hex & Hmin)|[-> Hall]].
  - apply lookup_seqZ in Hi as [-> Hi]. split; [lia|]. left. split; [done|].
    intros r' Hr'. apply (Hmin (Z.to_nat (r' - (c + 1)))); [lia|].
    apply lookup_seqZ. lia.
  - split; [lia|]. right. split; [done|]. intros r' Hr'. apply Hall.
    apply list_elem_of_lookup. exists (Z.to_nat (r' - (c + 1))).
    apply lookup_seqZ. lia.
Qed.

(** A surge from one replica jumps three levels in a single decision. *)
Example scale_up_jump :
  desired_replicas default_config 1 75 = Ok (4, ReasonScaleUp 75 (Fin 10)).
Proof. reflexivity. Qed.

(** ** Hysteresis: boundary values *)

(** C6: a rate equal to the scale-up threshold of the current level takes
    the scale-up path ([>=] is inclusive); a rate equal to its scale-down
    threshold does not take the scale-down path ([<] is strict) and the
    current count is returned unchanged. *)
Theorem threshold_boundaries (c : Z) (up down : threshold) :
  RPS_THRESHOLDS default_config !! c = Some (up, down) ->
  (forall q x, up = Fin q -> (x == q)%Q ->
     exists r, desired_replicas default_config c x
               = Ok (r, ReasonScaleUp x up) /\ c < r) /\
  (forall q x, down = Fin q -> (x == q)%Q ->
     desired_replicas default_config c x = Ok (c, ReasonStable x down up)).
Proof.
  intros Hc. cbn [RPS_THRESHOLDS default_config] in Hc.
  destruct (table_domain_cases c) as [->|[->|[->|[->| ->]]]];
    [by rewrite Hc|..].
  all: first [ rewrite thr_1 in Hc | rewrite thr_2 in Hc | rewrite thr_3 in Hc
             | rewrite thr_4 in Hc | rewrite thr_5 in Hc ];
    injection Hc as <- <-; split; intros q x [= <-] Hx; unfold_desired;
    rate_cases; try (exfalso; lra);
    first [ reflexivity | eexists; split; [reflexivity | lia] ].
Qed.

Lemma threshold_boundaries_witness :
  (forall q x, Fin 30 = Fin q -> (x == q)%Q ->
     exists r, desired_replicas default_config 2 x
               = Ok (r, ReasonScaleUp x (Fin 30)) /\ 2 < r) /\
  (forall q x, Fin 8 = Fin q -> (x == q)%Q ->
     desired_replicas default_config 2 x
     = Ok (2, ReasonStable x (Fin 8) (Fin 30))).
Proof.
  apply (threshold_boundaries 2 (Fin 30) (Fin 8)). reflexivity.
Defined.

(** The two boundaries of level 2, evaluated. *)
Example boundary_up_2 :
  desired_replicas default_config 2 30 = Ok (3, ReasonScaleUp 30 (Fin 30)).
Proof. reflexivity. Qed.

Example boundary_down_2 :
  desired_replicas default_config 2 8 = Ok (2, ReasonStable 8 (Fin 8) (Fin 30)).
Proof. reflexivity. Qed.

(** ** Hysteresis: monotonicity in the rate *)

Lemma desired_replicas_monotone_aux (c : Z) (x y : Q) :
  is_Some (default_thresholds !! c) ->
  (x <= y)%Q ->
  match desired_replicas default_config c x,
        desired_replicas default_config c y with
  | Ok (dx, _), Ok (dy, _) => dx <= dy
  | _, _ => False
  end.
Proof.
  intros Hc Hxy. apply table_domain_cases in Hc.
  destruct Hc as [->|[->|[->|[->| ->]]]]; unfold_desired; rate_cases;
    first [ lia | exfalso; lra ].
Qed.

(** C7: for a current replica count of the threshold table, the desired
    replica count is monotone in the smoothed rate. *)
Theorem desired_replicas_monotone (c : Z) (x y : Q) :
  is_Some (RPS_THRESHOLDS default_config !! c) ->
  (x <= y)%Q ->
  exists dx rx dy ry,
    desired_replicas default_config c x = Ok (dx, rx) /\
    desired_replicas default_config c y = Ok (dy, ry) /\
    dx <= dy.
Proof.
  intros Hc Hxy.
  pose proof (desired_replicas_monotone_aux c x y Hc Hxy) as H.
  destruct (desired_replicas default_config c x) as [[dx rx]|]; [|done].
  destruct (desired_replicas default_config c y) as [[dy ry]|]; [|done].
  by exists dx, rx, dy, ry.
Qed.

Lemma desired_replicas_monotone_witness :
  exists dx rx dy ry,
    desired_replicas default_config 3 (9 # 1) = Ok (dx, rx) /\
    desired_replicas default_config 3 (61 # 1) = Ok (dy, ry) /\
    dx <= dy.
Proof.
  apply (desired_replicas_monotone 3 (9 # 1) (61 # 1)).
  - vm_compute. eauto.
  - vm_compute. discriminate.
Defined.

(** ** Smoothing *)

Section Smoothing.
Context {St : Type} (update : St -> Q -> St * Q) (stored : St -> Q)
  (alpha : Q).
Hypothesis update_stored : forall st s,
  stored (update st s).1 =
    if Qeq_bool (stored st) 0 then s
    else (alpha * s + (1 - alpha) * stored st)%Q.

Lemma length_feed (st : St) (samples : list Q) :
  length (feed update st samples) = length samples.
Proof.
  revert st. induction samples as [|s samples IH]; intros st; cbn; [done|].
  by rewrite IH.
Qed.

(** From any state: every stored value follows from the one before. *)
Lemma feed_step (st : St) (samples : list Q) (i : nat) (s v : Q) :
  samples !! i = Some s ->
  (stored <$> feed update st samples) !! i = Some v ->
  let prev := match i with
              | O => stored st
              | S j => default 0%Q ((stored <$> feed update st samples) !! j)
              end in
  v = if Qeq_bool prev 0 then s else (alpha * s + (1 - alpha) * prev)%Q.
Proof.
  revert st i. induction samples as [|s0 samples IH]; intros st i; [done|].
  destruct i as [|i]; cbn.
  - intros [= ->] [= <-]. apply update_stored.
  - intros Hs Hv. specialize (IH _ _ Hs Hv). destruct i as [|i]; [done|].
    apply IH.
Qed.

Lemma feed_recurrence (st : St) (samples : list Q) :
  stored st = 0%Q ->
  ema_recurrence alpha samples (stored <$> feed update st samples).
Proof.
  intros Hst. split; [by rewrite length_fmap, length_feed|].
  intros i s v Hs Hv. pose proof (feed_step st samples i s v Hs Hv) as H.
  destruct i as [|j]; cbv beta iota zeta in H.
  - by rewrite Hst in H.
  - intros prev Hprev. rewrite Hprev in H. cbn [from_option id] in H.
    by destruct (Qeq_bool prev 0).
Qed.
End Smoothing.

(** C1, as the code has it: on a fresh Service State and for every
    smoothing weight, the stored smoothed value after the first call is the
    first sample, and after a later call it is
    [alpha * s_i + (1 - alpha) * smoothed_(i-1)] when the previous smoothed
    value is not zero, and the sample [s_i] itself when it is zero.  Both
    engines. *)
Theorem smoothing_recurrence (config : AutoscalerConfig) (samples : list Q) :
  ema_recurrence (EMA_ALPHA config) samples
    (ReactiveModel.smoothed_rps <$>
       feed (ReactiveModel.update_smoothed_rps config)
            ReactiveModel.new_state samples) /\
  ema_recurrence (EMA_ALPHA config) samples
    (Reactive.smoothed_rps <$>
       feed (Reactive.update_smoothed_rps config) Reactive.new_state samples).
Proof.
  split; apply feed_recurrence; done.
Qed.

(** C1 as stated fails: with weight 0.7 and the samples 0, 10 the second
    smoothed value is 10, not 0.7 * 10 + 0.3 * 0 = 7. *)
Lemma smoothing_restarts_after_zero :
  (0 < EMA_ALPHA default_config <= 1)%Q /\
  ReactiveModel.smoothed_rps <$>
    feed (ReactiveModel.update_smoothed_rps default_config)
         ReactiveModel.new_state [0%Q; 10%Q] = [0%Q; 10%Q] /\
  ~ (10 == EMA_ALPHA default_config * 10
           + (1 - EMA_ALPHA default_config) * 0)%Q.
Proof.
  split; [cbn; lra|]. split; [reflexivity|]. cbn. lra.
Qed.

(** X6: with strictly positive samples and a weight in (0,1] no smoothed
    value is zero, and the plain recurrence holds at every later call. *)
Lemma smoothing_positive_samples (config : AutoscalerConfig)
    (samples : list Q) :
  (0 < EMA_ALPHA config <= 1)%Q ->
  Forall (fun s => 0 < s)%Q samples ->
  let smoothed :=
    ReactiveModel.smoothed_rps <$>
      feed (ReactiveModel.update_smoothed_rps config)
           ReactiveModel.new_state samples in
  Forall (fun v => 0 < v)%Q smoothed /\
  forall (j : nat) s prev v,
    samples !! (S j) = Some s -> smoothed !! j = Some prev ->
    smoothed !! (S j) = Some v ->
    v = (EMA_ALPHA config * s + (1 - EMA_ALPHA config) * prev)%Q.
Proof.
  intros Ha Hpos smoothed.
  assert (Forall (fun v => 0 < v)%Q smoothed) as Hall.
  { subst smoothed.
    assert (0 <= ReactiveModel.smoothed_rps ReactiveModel.new_state)%Q as H0
      by (cbn; lra).
    revert H0. generalize ReactiveModel.new_state as st.
    induction Hpos as [|s samples Hs Hpos IH]; intros st Hst; cbn; [done|].
    assert (0 < if Qeq_bool (ReactiveModel.smoothed_rps st) 0 then s
                else EMA_ALPHA config * s
                     + (1 - EMA_ALPHA config) * ReactiveModel.smoothed_rps st)%Q.
    { destruct (Qeq_bool_spec (ReactiveModel.smoothed_rps st) 0); [done|].
      nra. }
    constructor; [done|]. apply IH. cbn. lra. }
  split; [done|].
  intros j s prev v Hs Hprev Hv.
  assert (ema_recurrence (EMA_ALPHA config) samples smoothed) as [_ Hrec]
    by (apply feed_recurrence; done).
  specialize (Hrec (S j) s v Hs Hv prev Hprev). cbn in Hrec.
  destruct (Qeq_bool_spec prev 0) as [Hz|]; [|done].
  rewrite Forall_lookup in Hall. specialize (Hall _ _ Hprev). cbn in Hall. lra.
Qed.

(** ** The cooldown gate on a fresh state *)

(** C2, as the code has it: on a freshly created Service State the gate
    permits exactly when the desired count is the initial count 1 or the
    current time is at least the cooldown period: the initial last-scale
    time is 0, so a first change attempted earlier is blocked.  Both
    engines. *)
Theorem fresh_state_gate (config : AutoscalerConfig) (d : Z) :
  (forall t : Z,
     (ReactiveModel.should_scale config ReactiveModel.new_state t d).1 = true
     <-> d = 1 \/ COOLDOWN_PERIOD config <= t) /\
  (forall now : Q,
     (Reactive.should_scale config Reactive.new_state now d).1 = true
     <-> d = 1 \/ (inject_Z (COOLDOWN_PERIOD config) <= now)%Q).
Proof.
  split.
  - intros t. unfold ReactiveModel.should_scale. cbn.
    destruct (Z.eqb_spec d 1) as [->|Hd]; cbn; [tauto|].
    rewrite Z.sub_0_r.
    destruct (Z.ltb_spec t (COOLDOWN_PERIOD config)); cbn;
      (split; [try done; intros _; right; lia | intros [?|?]; lia || done]).
  - intros now. unfold Reactive.should_scale. cbn.
    destruct (Z.eqb_spec d 1) as [->|Hd]; cbn; [tauto|].
    destruct (Qlt_bool_spec (now - 0) (inject_Z (COOLDOWN_PERIOD config)));
      cbn; (split; [try done; intros _; right; lra
                   | intros [?|?]; [lia || done | lra || done]]).
Qed.

(** C2 as stated fails: the first scale-up of a service, attempted at time
    bucket 0, is blocked for 60 seconds. *)
Lemma fresh_state_gate_blocks_early :
  ReactiveModel.should_scale default_config ReactiveModel.new_state 0 2
  = (false, ReasonCooldown 60).
Proof. reflexivity. Qed.

(** ** The live driver when the replica lookup fails *)

(** C8, as the code has it: when the metrics source answers and the
    replica-count lookup fails, no scaling is requested and nothing is
    raised; the replica count, the last-scale time and the history of the
    state are left as they were, the states of the other services too; the
    raw and the smoothed rate have already been updated with the sample. *)
Theorem lookup_failure_skips_scaling (config : AutoscalerConfig)
    (states : gmap string Reactive.ServiceState) (service : string)
    (world : Reactive.Responses) (rps : Q) :
  Reactive.get_rps world = Some rps ->
  Reactive.get_current_replicas world = None ->
  let old := default Reactive.new_state (states !! service) in
  let step := Reactive.process_service config states service world in
  Reactive.step_scale_request step = None /\
  Reactive.step_raised step = None /\
  exists state,
    Reactive.step_states step = <[service := state]> states /\
    Reactive.current_replicas state = Reactive.current_replicas old /\
    Reactive.last_scale_time state = Reactive.last_scale_time old /\
    Reactive.scale_history state = Reactive.scale_history old /\
    Reactive.raw_rps state = rps /\
    Reactive.smoothed_rps state =
      if Qeq_bool (Reactive.smoothed_rps old) 0 then rps
      else (EMA_ALPHA config * rps
            + (1 - EMA_ALPHA config) * Reactive.smoothed_rps old)%Q.
Proof.
  intros Hrps Hk8s old step. subst step. unfold Reactive.process_service.
  rewrite Hrps. cbn. rewrite Hk8s. cbn.
  split; [done|]. split; [done|]. eexists. split; [reflexivity|]. done.
Qed.

Lemma lookup_failure_skips_scaling_witness :
  let old :=
    default Reactive.new_state
      ((∅ : gmap string Reactive.ServiceState) !! "web"%string) in
  let step := Reactive.process_service default_config ∅ "web" lookup_fails in
  Reactive.step_scale_request step = None /\
  Reactive.step_raised step = None /\
  exists state,
    Reactive.step_states step = <["web"%string := state]> ∅ /\
    Reactive.current_replicas state = Reactive.current_replicas old /\
    Reactive.last_scale_time state = Reactive.last_scale_time old /\
    Reactive.scale_history state = Reactive.scale_history old /\
    Reactive.raw_rps state = 20%Q /\
    Reactive.smoothed_rps state =
      if Qeq_bool (Reactive.smoothed_rps old) 0 then 20%Q
      else (EMA_ALPHA default_config * 20
            + (1 - EMA_ALPHA default_config) * Reactive.smoothed_rps old)%Q.
Proof.
  apply (lookup_failure_skips_scaling default_config ∅ "web" lookup_fails 20);
    reflexivity.
Defined.

(** C8 as stated fails: a state with smoothed rate 10 holds another
    smoothed rate, and raw rate 20, after an iteration whose replica lookup
    failed. *)
Lemma lookup_failure_mutates_rates :
  exists state,
    Reactive.step_states
      (Reactive.process_service default_config
         {["web"%string := tracked_state]} "web" lookup_fails) !! "web"%string
      = Some state /\
    Reactive.raw_rps state = 20%Q /\
    (Reactive.smoothed_rps state == 17)%Q /\
    ~ (Reactive.smoothed_rps state == Reactive.smoothed_rps tracked_state)%Q /\
    state <> tracked_state.
Proof.
  eexists. split; [vm_compute; reflexivity|].
  split; [reflexivity|]. split; [reflexivity|]. split; [by vm_compute|].
  by vm_compute.
Qed.

(** ** The batch driver: one row *)

Section BatchStep.
Import ReactiveModel.
Variable config : AutoscalerConfig.

Lemma process_row_Ok (sim sim' : Sim) (t : Z) (s : string) (v : Q) :
  process_row config sim (t, s, v) = Ok sim' ->
  exists st' e,
    service_states sim' = <[s := st']> (service_states sim) /\
    events sim' = events sim ++ [e] /\
    event_input e = (t, s, v) /\
    ev_prev_replicas e = current_replicas (state_of sim s) /\
    ev_new_replicas e = current_replicas st' /\
    exists d r,
      desired_replicas config (current_replicas (state_of sim s))
        (ev_smoothed_rps e) = Ok (d, r) /\
      ((applied e /\ d <> current_replicas (state_of sim s) /\
        COOLDOWN_PERIOD config <= t - last_scale_time (state_of sim s) /\
        current_replicas st' = d /\ last_scale_time st' = t)
       \/ (~ applied e /\
           current_replicas st' = current_replicas (state_of sim s) /\
           last_scale_time st' = last_scale_time (state_of sim s))).
Proof.
  unfold process_row, state_of, desired_replicas_with_hysteresis.
  set (old := default new_state (service_states sim !! s)).
  cbn [update_smoothed_rps current_replicas].
  set (sm := if Qeq_bool (smoothed_rps old) 0 then v else _).
  destruct (desired_replicas config (current_replicas old) sm)
    as [[d r]|k] eqn:Hd; [|done].
  cbn [mbind outcome_bind]. unfold should_scale.
  cbn [current_replicas last_scale_time].
  destruct (Z.eqb_spec d (current_replicas old)) as [->|Hne].
  - rewrite Z.ltb_irrefl. intros [= <-]. eexists _, _.
    split; [reflexivity|]. split; [reflexivity|]. split; [reflexivity|].
    split; [reflexivity|]. split; [reflexivity|]. exists (current_replicas old), r.
    split; [done|]. right. cbn. split; [|done]. intros [?|?]; done.
  - destruct (Z.ltb_spec (t - last_scale_time old) (COOLDOWN_PERIOD config)).
    + destruct (Z.ltb_spec (current_replicas old) d);
        [|destruct (Z.ltb_spec d (current_replicas old)); [|lia]];
        intros [= <-]; eexists _, _;
        (split; [reflexivity|]); (split; [reflexivity|]);
        (split; [reflexivity|]); (split; [reflexivity|]);
        (split; [reflexivity|]); exists d, r; (split; [done|]); right; cbn;
        (split; [|done]); intros [?|?]; done.
    + destruct (Z.ltb_spec (current_replicas old) d);
        [|destruct (Z.ltb_spec d (current_replicas old)); [|lia]];
        intros [= <-]; eexists _, _;
        (split; [reflexivity|]); (split; [reflexivity|]);
        (split; [reflexivity|]); (split; [reflexivity|]);
        (split; [reflexivity|]); exists d, r; (split; [done|]); left; cbn;
        unfold applied; cbn; (split; [auto|]); done.
Qed.

(** A property kept by every row is kept by the run. *)
Lemma run_invariant (P : Sim -> Prop) :
  (forall sim row sim',
      P sim -> process_row config sim row = Ok sim' -> P sim') ->
  forall rows sim sim', P sim -> run config sim rows = Ok sim' -> P sim'.
Proof.
  intros Hstep rows. induction rows as [|row rows IH]; intros sim sim' HP; cbn.
  - by intros [= <-].
  - destruct (process_row config sim row) as [sim1|] eqn:Hrow; [|done].
    cbn. apply IH. by eapply Hstep.
Qed.
End BatchStep.

(** ** The batch driver: the run *)

Section BatchRun.
Import ReactiveModel.

Lemma state_of_in_table (sim : Sim) (s : string) :
  replicas_in_table sim -> 1 <= current_replicas (state_of sim s) <= 5.
Proof.
  intros Hinv. unfold state_of.
  destruct (service_states sim !! s) as [st|] eqn:Hs; cbn; [by eapply Hinv|lia].
Qed.

Lemma process_row_in_table (sim sim' : Sim) (row : Z * string * Q) :
  replicas_in_table sim ->
  process_row default_config sim row = Ok sim' ->
  replicas_in_table sim'.
Proof.
  destruct row as [[t s] v]. intros Hinv Hrow.
  pose proof (state_of_in_table sim s Hinv) as Hold.
  apply process_row_Ok in Hrow
    as (st' & e & Hst & _ & _ & _ & _ & d & r & Hd & Hcase).
  destruct (desired_replicas_in_table (current_replicas (state_of sim s))
              (ev_smoothed_rps e)) as (d' & r' & Hd' & Hrange).
  { apply default_thresholds_dom. lia. }
  rewrite Hd in Hd'. injection Hd' as <- <-.
  intros s' st0. rewrite Hst, lookup_insert.
  case_decide as Heq; [|by apply Hinv].
  intros [= <-]. destruct Hcase as [(_ & _ & _ & -> & _)|(_ & -> & _)]; lia.
Qed.

Lemma initial_in_table : replicas_in_table initial_sim.
Proof. intros s st. cbn. by rewrite lookup_empty. Qed.

(** *** Cooldown separation *)

Lemma process_row_cooldown (config : AutoscalerConfig) (sim sim' : Sim)
    (row : Z * string * Q) :
  0 <= COOLDOWN_PERIOD config ->
  cooldown_inv config sim ->
  process_row config sim row = Ok sim' ->
  cooldown_inv config sim'.
Proof.
  destruct row as [[t s] v]. intros Hcd [Hlast Hsep] Hrow.
  apply process_row_Ok in Hrow
    as (st' & e & Hst & Hev & Hin & _ & _ & d & r & _ & Hcase).
  injection Hin as Ht Hs _.
  assert (forall s', state_of sim' s' =
                     if decide (s = s') then st' else state_of sim s') as Hof.
  { intros s'. unfold state_of. rewrite Hst, lookup_insert.
    by case_decide. }
  split.
  - intros e0 He0 Happ. rewrite Hof. rewrite Hev in He0.
    apply elem_of_app in He0 as [He0|He0%list_elem_of_singleton].
    + case_decide as Heq; [|by apply Hlast].
      specialize (Hlast e0 He0 Happ). rewrite <- Heq in Hlast.
      destruct Hcase as [(_ & _ & ? & _ & ->)|(_ & _ & ->)]; lia.
    + subst e0. rewrite Hs. rewrite decide_True by done.
      destruct Hcase as [(_ & _ & ? & _ & ->)|(Hn & _)]; [lia|done].
  - intros i j ei ej Hij Hi Hj Hsame Hai Haj. rewrite Hev in Hi, Hj.
    assert (i < length (events sim))%nat as Hilt.
    { apply lookup_lt_Some in Hj. rewrite length_app in Hj. cbn in Hj. lia. }
    rewrite lookup_app_l in Hi by done.
    destruct (decide (j < length (events sim))%nat) as [Hjlt|Hjge].
    + rewrite lookup_app_l in Hj by done. by apply (Hsep i j ei ej).
    + rewrite lookup_app_r in Hj by lia.
      apply list_lookup_singleton_Some in Hj as [_ <-].
      specialize (Hlast ei (list_elem_of_lookup_2 _ _ _ Hi) Hai).
      rewrite Hsame, Hs in Hlast.
      destruct Hcase as [(_ & _ & ? & _ & _)|(Hn & _)]; [lia|done].
Qed.

Lemma run_cooldown (config : AutoscalerConfig) (rows : list (Z * string * Q))
    (sim : Sim) :
  0 <= COOLDOWN_PERIOD config ->
  run config initial_sim rows = Ok sim ->
  separated (COOLDOWN_PERIOD config) (events sim).
Proof.
  intros Hcd Hrun.
  apply (run_invariant config (cooldown_inv config)) in Hrun; [apply Hrun|..].
  - intros ????. by apply process_row_cooldown.
  - split.
    + intros e He. by apply elem_of_nil in He.
    + intros i j ei ej _ Hi. done.
Qed.
End BatchRun.

(** ** The batch driver: first decisions *)

Section BatchFirst.
Import ReactiveModel.


End BatchFirst.

(** ** The batch driver: aggregation *)

Section Aggregation.
Import ReactiveModel.

Lemma string_compare_refl (s : string) : String.compare s s = Eq.
Proof.
  induction s as [|a s IH]; cbn; [done|].
  unfold Ascii.compare. by rewrite N.compare_refl.
Qed.

Lemma string_compare_lt_trans (a b c : string) :
  String.compare a b = Lt -> String.compare b c = Lt ->
  String.compare a c = Lt.
Proof.
  intros Hab Hbc.
  assert (String.le a c) as Hac.
  { transitivity b; unfold String.le, String.leb; [by rewrite Hab|by rewrite Hbc]. }
  unfold String.le, String.leb in Hac.
  destruct (String.compare a c) eqn:Hc; [|done|done].
  apply String.compare_eq_iff in Hc as ->.
  rewrite String.compare_antisym, Hbc in Hab. done.
Qed.

Lemma key_compare_eq (k k' : Z * string) : key_compare k k' = Eq <-> k = k'.
Proof.
  destruct k as [b s], k' as [b' s']. unfold key_compare. cbn. split.
  - destruct (Z.compare_spec b b') as [->| |]; [|done|done].
    by intros ->%String.compare_eq_iff.
  - intros [= -> ->]. by rewrite Z.compare_refl, string_compare_refl.
Qed.

Lemma key_compare_gt (k k' : Z * string) :
  key_compare k k' = Gt -> key_lt k' k.
Proof.
  destruct k as [b s], k' as [b' s']. unfold key_lt, key_compare. cbn.
  rewrite (Z.compare_antisym b b').
  destruct (Z.compare_spec b b') as [->| |]; cbn; [|done|done].
  rewrite (String.compare_antisym s s').
  by destruct (String.compare s' s).
Qed.

Lemma key_lt_irrefl (k : Z * string) : ~ key_lt k k.
Proof.
  unfold key_lt. assert (key_compare k k = Eq) as -> by by apply key_compare_eq.
  done.
Qed.

#[local] Instance key_lt_trans : Transitive key_lt.
Proof.
  intros [b1 s1] [b2 s2] [b3 s3]. unfold key_lt, key_compare. cbn.
  destruct (Z.compare_spec b1 b2) as [->| |]; [|intros _|done].
  - destruct (Z.compare_spec b2 b3) as [->| |]; [|done|done].
    apply string_compare_lt_trans.
  - destruct (Z.compare_spec b2 b3) as [->| |]; [|intros _|done].
    + intros _. by assert ((b1 ?= b3) = Lt) as -> by by apply Z.compare_lt_iff.
    + by assert ((b1 ?= b3) = Lt) as -> by (apply Z.compare_lt_iff; lia).
Qed.

Lemma sorted_head_absent (k : Z * string) (keys : list (Z * string)) :
  Forall (key_lt k) keys -> k ∉ keys.
Proof.
  intros Hall Hin. rewrite Forall_forall in Hall.
  by apply (key_lt_irrefl k), Hall.
Qed.

Lemma add_to_group_keys (k k0 : Z * string) (v : Q)
    (groups : list (Z * string * Q)) :
  k0 ∈ (add_to_group k v groups).*1 <-> k0 = k \/ k0 ∈ groups.*1.
Proof.
  induction groups as [|[k' total] groups IH]; cbn.
  - rewrite list_elem_of_singleton, elem_of_nil. tauto.
  - destruct (key_compare k k') eqn:Hc; cbn.
    + apply key_compare_eq in Hc as ->. rewrite elem_of_cons. tauto.
    + rewrite !elem_of_cons. tauto.
    + rewrite !elem_of_cons, IH. tauto.
Qed.

Lemma add_to_group_sorted (k : Z * string) (v : Q)
    (groups : list (Z * string * Q)) :
  StronglySorted key_lt (groups.*1) ->
  StronglySorted key_lt ((add_to_group k v groups).*1).
Proof.
  induction groups as [|[k' total] groups IH]; cbn.
  - intros _. repeat constructor.
  - intros [Hall Hsorted]%StronglySorted_cons.
    destruct (key_compare k k') eqn:Hc; cbn.
    + by apply StronglySorted_cons.
    + apply StronglySorted_cons. split; [|by apply StronglySorted_cons].
      constructor; [done|].
      eapply Forall_impl; [exact Hall|]. intros k0 Hk0. by etrans.
    + apply StronglySorted_cons. split; [|by apply IH].
      apply Forall_forall. intros k0 [->|Hk0]%add_to_group_keys.
      * by apply key_compare_gt.
      * rewrite Forall_forall in Hall. by apply Hall.
Qed.

Lemma add_to_group_other (k k0 : Z * string) (v v0 : Q)
    (groups : list (Z * string * Q)) :
  k0 <> k -> (k0, v0) ∈ groups -> (k0, v0) ∈ add_to_group k v groups.
Proof.
  intros Hne. induction groups as [|[k' total] groups IH]; cbn;
    [by intros ?%elem_of_nil|].
  intros [[= <- <-]|Hin]%elem_of_cons.
  - destruct (key_compare k k0) eqn:Hc.
    + apply key_compare_eq in Hc. congruence.
    + apply elem_of_cons. right. apply elem_of_cons. by left.
    + apply elem_of_cons. by left.
  - destruct (key_compare k k') eqn:Hc.
    + apply elem_of_cons. by right.
    + apply elem_of_cons. right. apply elem_of_cons. by right.
    + apply elem_of_cons. right. by apply IH.
Qed.

Lemma add_to_group_new (k : Z * string) (v : Q)
    (groups : list (Z * string * Q)) :
  k ∉ groups.*1 -> (k, v) ∈ add_to_group k v groups.
Proof.
  induction groups as [|[k' total] groups IH]; cbn.
  - intros _. by apply list_elem_of_singleton.
  - rewrite not_elem_of_cons. intros [Hne Hnot].
    destruct (key_compare k k') eqn:Hc.
    + apply key_compare_eq in Hc. congruence.
    + apply elem_of_cons. by left.
    + apply elem_of_cons. right. by apply IH.
Qed.

Lemma add_to_group_sum (k : Z * string) (v total : Q)
    (groups : list (Z * string * Q)) :
  StronglySorted key_lt (groups.*1) ->
  (k, total) ∈ groups -> (k, (total + v)%Q) ∈ add_to_group k v groups.
Proof.
  induction groups as [|[k' total'] groups IH]; cbn; [by intros _ ?%elem_of_nil|].
  intros [Hall Hsorted]%StronglySorted_cons Hin.
  assert ((k, total) ∈ groups -> k ∈ groups.*1) as Hkeys.
  { intros H. apply list_elem_of_fmap. by exists (k, total). }
  apply elem_of_cons in Hin as [[= <- <-]|Hin].
  - assert (key_compare k k = Eq) as -> by by apply key_compare_eq.
    apply elem_of_cons. by left.
  - destruct (key_compare k k') eqn:Hc.
    + apply key_compare_eq in Hc as <-.
      by destruct (sorted_head_absent k (groups.*1) Hall (Hkeys Hin)).
    + exfalso. apply (key_lt_irrefl k). etrans; [exact Hc|].
      rewrite Forall_forall in Hall. apply Hall, Hkeys, Hin.
    + apply elem_of_cons. right. by apply IH.
Qed.
End Aggregation.

Section Grouping.
Import ReactiveModel.

Lemma Qsum_snoc (l : list Q) (v : Q) : (Qsum (l ++ [v]) == Qsum l + v)%Q.
Proof.
  induction l as [|x l IH]; cbn; [ring|]. fold (Qsum (l ++ [v])).
  fold (Qsum l). rewrite IH. ring.
Qed.

Lemma rates_of_snoc (b : Z) (it it' : string) (t v : Q)
    (rows : list (string * Q * Q)) :
  rates_of b it (rows ++ [(it', t, v)]) =
  rates_of b it rows ++
    (if decide (time_bucket t = b /\ it' = it) then [v] else []).
Proof.
  unfold rates_of. rewrite omap_app. f_equal. cbn. by case_decide.
Qed.

Lemma grouped_snoc (it : string) (t v : Q) (rows : list (string * Q * Q)) :
  grouped (rows ++ [(it, t, v)]) =
  add_to_group (time_bucket t, it) v (grouped rows).
Proof. unfold grouped. by rewrite foldl_snoc. Qed.

(** The grouped table has one row per key that occurs, in ascending key
    order, and the row holds the sum of the key's rates. *)
Lemma grouped_spec (rows : list (string * Q * Q)) :
  grouped_inv rows (grouped rows).
Proof.
  induction rows as [|[[it' t] v] rows [Hsorted Hkeys]] using rev_ind.
  - split; [constructor|]. intros b it. split; [|done].
    intros _. apply not_elem_of_nil.
  - rewrite grouped_snoc. split; [by apply add_to_group_sorted|].
    intros b it. rewrite rates_of_snoc.
    destruct (Hkeys b it) as [Hnone Hsome].
    case_decide as Hk.
    + destruct Hk as [<- ->]. split; [by intros [_ [=]]%app_nil|]. intros _.
      destruct (rates_of (time_bucket t) it rows) as [|r rs] eqn:Hr.
      * exists v. split; [by apply add_to_group_new, Hnone|]. cbn. ring.
      * destruct Hsome as (total & Hin & Htotal); [done|].
        exists (total + v)%Q. split; [by apply add_to_group_sum|].
        rewrite (Qsum_snoc (r :: rs) v), Htotal. reflexivity.
    + rewrite app_nil_r.
      assert ((b, it) <> (time_bucket t, it')) as Hne.
      { intros [= -> ->]. by apply Hk. }
      split.
      * intros Hr [?|?]%add_to_group_keys; [done|]. by apply Hnone.
      * intros Hr. destruct (Hsome Hr) as (total & Hin & Htotal).
        exists total. split; [by apply add_to_group_other|done].
Qed.

Lemma sorted_keys_NoDup (keys : list (Z * string)) :
  StronglySorted key_lt keys -> NoDup keys.
Proof.
  induction 1 as [|k keys _ IH Hall]; constructor; [|done].
  by apply sorted_head_absent.
Qed.

Lemma filter_none {A : Type} (P : A -> Prop) `{forall x, Decision (P x)}
    (l : list A) :
  (forall x, x ∈ l -> ~ P x) -> filter P l = [].
Proof.
  induction l as [|x l IH]; [done|]. intros Hall.
  rewrite filter_cons_False.
  - apply IH. intros y Hy. apply Hall, elem_of_cons. by right.
  - apply Hall, elem_of_cons. by left.
Qed.

Lemma filter_unique_key {A : Type} (f : A -> Z * string) (l : list A)
    (k : Z * string) (a : A) :
  NoDup (f <$> l) -> a ∈ l -> f a = k ->
  filter (fun x => f x = k) l = [a].
Proof.
  induction l as [|x l IH]; [by intros _ ?%elem_of_nil|].
  rewrite fmap_cons. intros [Hx Hl]%NoDup_cons Hin Hk.
  assert (f x = k -> filter (fun x => f x = k) l = []) as Hrest.
  { intros Hfx. apply filter_none.
    intros y Hy Hfy. apply Hx. apply list_elem_of_fmap. exists y.
    split; [congruence|done]. }
  apply elem_of_cons in Hin as [->|Hin].
  - rewrite filter_cons_True by done. by rewrite Hrest.
  - rewrite filter_cons_False; [by apply IH|].
    intros Hfx. apply Hx. apply list_elem_of_fmap. exists a.
    split; [congruence|done].
Qed.

(** One event per grouped row, reporting the row. *)
Lemma run_events (config : AutoscalerConfig) (rows : list (Z * string * Q))
    (sim sim' : Sim) :
  run config sim rows = Ok sim' ->
  event_input <$> events sim' = (event_input <$> events sim) ++ rows.
Proof.
  revert sim. induction rows as [|[[t s] v] rows IH]; intros sim; cbn [run].
  - intros [= <-]. by rewrite app_nil_r.
  - destruct (process_row config sim (t, s, v)) as [sim1|] eqn:Hrow; [|done].
    cbn [mbind outcome_bind]. intros Hrun. rewrite (IH _ Hrun).
    apply process_row_Ok in Hrow as (st' & e & _ & -> & Hin & _).
    by rewrite fmap_app, <- app_assoc, <- Hin.
Qed.
End Grouping.

(** The run on the sample: one event for "web" in bucket 0, fed with
    3 + 4.5, and one for "api". *)
Example sample_run :
  exists sim,
    ReactiveModel.main default_config sample_dataset = Ok sim /\
    event_input <$> ReactiveModel.events sim
      = [(0, "web"%string, (15 # 2)%Q); (60, "api"%string, 40%Q)].
Proof. eexists. split; vm_compute; reflexivity. Qed.

(** * Further properties of the engine *)

(** ** The scans, for any configuration *)

Lemma scan_up_result (config : AutoscalerConfig) (x : Q) (t : threshold)
    (levels : list Z) (d : Z) (reason0 : reason) :
  scan_up config x t levels = Ok (d, reason0) ->
  (d ∈ levels /\ reason0 = ReasonScaleUp x t)
  \/ (d = MAX_REPLICAS config /\ reason0 = ReasonExceedsAll x).
Proof.
  induction levels as [|l levels IH]; cbn [scan_up].
  - intros [= <- <-]. by right.
  - destruct (RPS_THRESHOLDS config !! l) as [[up down]|]; [|done].
    destruct (rate_lt x up).
    + intros [= <- <-]. left. split; [|done]. apply elem_of_cons. by left.
    + intros [[Hd ->]|[-> ->]]%IH; [left|by right].
      split; [|done]. apply elem_of_cons. by right.
Qed.

Lemma scan_down_result (config : AutoscalerConfig) (x : Q) (t : threshold)
    (levels : list Z) (d : Z) (reason0 : reason) :
  scan_down config x t levels = Ok (d, reason0) ->
  (d ∈ levels /\ reason0 = ReasonScaleDown x t)
  \/ ((MIN_REPLICAS config ∉ levels) /\ reason0 = ReasonBelowMin x).
Proof.
  induction levels as [|l levels IH]; cbn [scan_down].
  - intros [= <- <-]. right. split; [apply not_elem_of_nil|done].
  - destruct (RPS_THRESHOLDS config !! l) as [[up down]|]; [|done].
    destruct (rate_ge x down || (l =? MIN_REPLICAS config)) eqn:Hc.
    + intros [= <- <-]. left. split; [|done]. apply elem_of_cons. by left.
    + apply orb_false_iff in Hc as [_ Hl%Z.eqb_neq].
      intros [[Hd ->]|[Hmin ->]]%IH; [left|right].
      * split; [|done]. apply elem_of_cons. by right.
      * split; [|done]. apply not_elem_of_cons. split; [congruence|done].
Qed.

Lemma elem_of_py_range (a b k : Z) : k ∈ py_range a b <-> a <= k < b.
Proof.
  unfold py_range. rewrite list_elem_of_lookup. split.
  - intros [i [-> Hi]%lookup_seqZ]. lia.
  - intros Hk. exists (Z.to_nat (k - a)). apply lookup_seqZ. lia.
Qed.

Lemma elem_of_py_range_down (a b k : Z) : k ∈ py_range_down a b <-> b < k <= a.
Proof.
  unfold py_range_down. rewrite list_elem_of_fmap. split.
  - intros (i & -> & [j [-> Hj]%lookup_seqZ]%list_elem_of_lookup). lia.
  - intros Hk. exists (a - k). split; [lia|].
    apply list_elem_of_lookup. exists (Z.to_nat (a - k)).
    apply lookup_seqZ. lia.
Qed.

Lemma scan_up_returns (config : AutoscalerConfig) (x : Q) (t : threshold)
    (levels : list Z) :
  (forall l, l ∈ levels -> is_Some (RPS_THRESHOLDS config !! l)) ->
  exists d reason0, scan_up config x t levels = Ok (d, reason0).
Proof.
  induction levels as [|l levels IH]; cbn [scan_up]; intros Hall; [by eauto|].
  destruct (Hall l) as [[up down] ->]; [apply elem_of_cons; by left|].
  destruct (rate_lt x up); [by eauto|].
  apply IH. intros l' Hl'. apply Hall, elem_of_cons. by right.
Qed.

Lemma scan_down_returns (config : AutoscalerConfig) (x : Q) (t : threshold)
    (levels : list Z) :
  (forall l, l ∈ levels -> is_Some (RPS_THRESHOLDS config !! l)) ->
  exists d reason0, scan_down config x t levels = Ok (d, reason0).
Proof.
  induction levels as [|l levels IH]; cbn [scan_down]; intros Hall; [by eauto|].
  destruct (Hall l) as [[up down] ->]; [apply elem_of_cons; by left|].
  destruct (rate_ge x down || (l =? MIN_REPLICAS config)); [by eauto|].
  apply IH. intros l' Hl'. apply Hall, elem_of_cons. by right.
Qed.

(** ** Direction of a decision *)

Lemma desired_replicas_reason_direction (config : AutoscalerConfig) (c : Z) (x : Q)
    (d : Z) (reason0 : reason) :
  desired_replicas config c x = Ok (d, reason0) ->
  match reason0 with
  | ReasonScaleUp _ _ => c < d <= MAX_REPLICAS config
  | ReasonExceedsAll _ => c < d /\ d = MAX_REPLICAS config
  | ReasonScaleDown _ _ => MIN_REPLICAS config <= d < c
  | ReasonStable _ _ _ => d = c
  | ReasonBelowMin _ | ReasonNoChange | ReasonCooldown _
  | ReasonCooldownExpired => False
  end.
Proof.
  unfold desired_replicas.
  destruct (RPS_THRESHOLDS config !! c) as [[up down]|]; [|done].
  destruct (rate_ge x up && (c <? MAX_REPLICAS config)) eqn:Hup.
  - apply andb_true_iff in Hup as [_ Hc%Z.ltb_lt].
    intros [[Hd%elem_of_py_range ->]|[-> ->]]%scan_up_result; lia.
  - destruct (rate_lt x down && (MIN_REPLICAS config <? c)) eqn:Hdown.
    + apply andb_true_iff in Hdown as [_ Hc%Z.ltb_lt].
      intros [[Hd%elem_of_py_range_down ->]|[Hmin ->]]%scan_down_result; [lia|].
      apply Hmin, elem_of_py_range_down. lia.
    + by intros [= <- <-].
Qed.


(** X1: whatever the configuration, a returned decision goes the way its
    reason says: a scale-up lies strictly above the current count and not
    above [MAX_REPLICAS], a scale-down strictly below it and not below
    [MIN_REPLICAS], a stable one is the current count.  The result
    "below minimum threshold" is never returned. *)
Theorem desired_replicas_direction (config : AutoscalerConfig) (c : Z) (x : Q)
    (d : Z) (reason0 : reason) :
  desired_replicas config c x = Ok (d, reason0) ->
  match reason0 with
  | ReasonScaleUp _ _ => c < d <= MAX_REPLICAS config
  | ReasonExceedsAll _ => c < d /\ d = MAX_REPLICAS config
  | ReasonScaleDown _ _ => MIN_REPLICAS config <= d < c
  | ReasonStable _ _ _ => d = c
  | ReasonBelowMin _ | ReasonNoChange | ReasonCooldown _
  | ReasonCooldownExpired => False
  end.
Proof.
  unfold desired_replicas.
  destruct (RPS_THRESHOLDS config !! c) as [[up down]|]; [|done].
  destruct (rate_ge x up && (c <? MAX_REPLICAS config)) eqn:Hup.
  - apply andb_true_iff in Hup as [_ Hc%Z.ltb_lt].
    intros [[Hd%elem_of_py_range ->]|[-> ->]]%scan_up_result; lia.
  - destruct (rate_lt x down && (MIN_REPLICAS config <? c)) eqn:Hdown.
    + apply andb_true_iff in Hdown as [_ Hc%Z.ltb_lt].
      intros [[Hd%elem_of_py_range_down ->]|[Hmin ->]]%scan_down_result; [lia|].
      apply Hmin, elem_of_py_range_down. lia.
    + by intros [= <- <-].
Qed.

Lemma desired_replicas_direction_witness :
  match ReasonScaleDown 3 (Fin 90) with
  | ReasonScaleUp _ _ => 5 < 1 <= MAX_REPLICAS default_config
  | ReasonExceedsAll _ => 5 < 1 /\ 1 = MAX_REPLICAS default_config
  | ReasonScaleDown _ _ => MIN_REPLICAS default_config <= 1 < 5
  | ReasonStable _ _ _ => 1 = 5
  | ReasonBelowMin _ | ReasonNoChange | ReasonCooldown _
  | ReasonCooldownExpired => False
  end.
Proof.
  apply (desired_replicas_direction default_config 5 3 1
           (ReasonScaleDown 3 (Fin 90))).
  reflexivity.
Defined.

(** ** A complete table *)

(** X2: with a table that has a row for every count of
    [MIN_REPLICAS..MAX_REPLICAS], the computation returns for every current
    count of that range and every rate, and its result lies in the range. *)
Theorem desired_replicas_complete_table (config : AutoscalerConfig) (c : Z)
    (x : Q) :
  table_complete config ->
  MIN_REPLICAS config <= c <= MAX_REPLICAS config ->
  exists d reason0,
    desired_replicas config c x = Ok (d, reason0) /\
    MIN_REPLICAS config <= d <= MAX_REPLICAS config.
Proof.
  intros Htable Hc.
  assert (exists d reason0, desired_replicas config c x = Ok (d, reason0))
    as (d & reason0 & Hd).
  { unfold desired_replicas. destruct (Htable c Hc) as [[up down] ->].
    destruct (rate_ge x up && _).
    - apply scan_up_returns. intros l Hl%elem_of_py_range. apply Htable. lia.
    - destruct (rate_lt x down && _); [|by eauto].
      apply scan_down_returns. intros l Hl%elem_of_py_range_down.
      apply Htable. lia. }
  exists d, reason0. split; [done|].
  apply desired_replicas_reason_direction in Hd.
  destruct reason0; try done; lia.
Qed.

Lemma five_level_complete : table_complete five_level_config.
Proof. intros k Hk. cbn in *. by apply default_thresholds_dom. Qed.

Lemma desired_replicas_complete_table_witness :
  exists d reason0,
    desired_replicas five_level_config 5 (95 # 1) = Ok (d, reason0) /\
    MIN_REPLICAS five_level_config <= d <= MAX_REPLICAS five_level_config.
Proof.
  apply (desired_replicas_complete_table five_level_config 5 (95 # 1)).
  - apply five_level_complete.
  - cbn. lia.
Defined.

(** ** A decision settles *)

Lemma desired_replicas_settles_aux (c : Z) (x : Q) :
  is_Some (default_thresholds !! c) ->
  match desired_replicas default_config c x with
  | Ok (d, _) =>
      match desired_replicas default_config d x with
      | Ok (d', ReasonStable _ _ _) => d' = d
      | _ => False
      end
  | KeyError _ => False
  end.
Proof.
  intros Hc. apply table_domain_cases in Hc.
  destruct Hc as [->|[->|[->|[->| ->]]]]; unfold_desired; rate_cases;
    unfold_desired; rate_cases; first [ reflexivity | exfalso; lra ].
Qed.

(** X3: with the source's configuration a decision is final for its rate:
    when the computation returns the count [d] for some current count and
    rate, then at the current count [d] and the same rate it returns [d]
    again, as stable.  A second decision on an unchanged rate never moves
    the replica count again. *)
Theorem desired_replicas_settles (c : Z) (x : Q) (d : Z) (reason0 : reason) :
  desired_replicas default_config c x = Ok (d, reason0) ->
  exists up down,
    desired_replicas default_config d x = Ok (d, ReasonStable x down up).
Proof.
  intros Hd.
  assert (is_Some (default_thresholds !! c)) as Hc.
  { apply default_thresholds_dom. destruct (decide (1 <= c <= 5)); [done|].
    by rewrite desired_replicas_outside_table in Hd. }
  pose proof (desired_replicas_settles_aux c x Hc) as H. rewrite Hd in H.
  destruct (desired_replicas default_config d x) as [[d' r']|] eqn:Hd';
    [|done].
  destruct r'; try done. subst d'.
  unfold desired_replicas in Hd'.
  destruct (RPS_THRESHOLDS default_config !! d) as [[up0 down0]|]; [|done].
  destruct (rate_ge x up0 && _).
  { by apply scan_up_result in Hd' as [[_ [=]]|[_ [=]]]. }
  destruct (rate_lt x down0 && _).
  { by apply scan_down_result in Hd' as [[_ [=]]|[_ [=]]]. }
  injection Hd' as <- <- <-. by exists up0, down0.
Qed.

Lemma desired_replicas_settles_witness :
  exists up down,
    desired_replicas default_config 4 (75 # 1)
    = Ok (4, ReasonStable (75 # 1) down up).
Proof.
  apply (desired_replicas_settles 1 (75 # 1) 4 (ReasonScaleUp (75 # 1) (Fin 10))).
  reflexivity.
Defined.

(** ** The scale-down scan *)

Lemma scan_down_first (config : AutoscalerConfig) (x : Q) (t : threshold)
    (levels : list Z) (r : Z) (reason0 : reason) :
  scan_down config x t levels = Ok (r, reason0) ->
  (exists i : nat,
      levels !! i = Some r /\
      (down_met config r x \/ r = MIN_REPLICAS config) /\
      forall (j : nat) r', (j < i)%nat -> levels !! j = Some r' ->
                           ~ down_met config r' x)
  \/ MIN_REPLICAS config ∉ levels.
Proof.
  induction levels as [|l levels IH]; cbn [scan_down].
  - intros _. right. apply not_elem_of_nil.
  - destruct (RPS_THRESHOLDS config !! l) as [[up down]|] eqn:Hl; [|done].
    destruct (rate_ge x down) eqn:Hge; cbn [orb].
    + intros [= <- _]. left. exists 0%nat. split; [done|]. split.
      * left. by exists up, down.
      * intros j r' Hj. lia.
    + assert (~ down_met config l x) as Hnot.
      { intros (up' & down' & Hl' & Hge'). congruence. }
      destruct (Z.eqb_spec l (MIN_REPLICAS config)) as [Hmin|Hmin].
      * intros [= <- _]. left. exists 0%nat. split; [done|].
        split; [by right|]. intros j r' Hj. lia.
      * intros [(i & Hi & Hr & Hfirst)|Habsent]%IH.
        -- left. exists (S i). split; [done|]. split; [done|].
           intros [|j] r' Hj Hr'; cbn in Hr'.
           ++ by injection Hr' as <-.
           ++ apply (Hfirst j); [lia|done].
        -- right. apply not_elem_of_cons. split; [congruence|done].
Qed.

(** X4: when the scale-down path triggers (the rate is below the scale-down
    threshold of the current count, the scale-up path did not trigger and
    the count is above [MIN_REPLICAS]), the computation returns the highest
    level below the current one at which the rate is not below the
    scale-down threshold, and [MIN_REPLICAS] when there is none; the result
    may lie several levels below the current count. *)
Theorem scale_down_returns_first_level (c : Z) (x : Q) (up down : threshold) :
  RPS_THRESHOLDS default_config !! c = Some (up, down) ->
  rate_ge x up = false ->
  rate_lt x down = true ->
  MIN_REPLICAS default_config < c ->
  exists r reason0,
    desired_replicas default_config c x = Ok (r, reason0) /\
    MIN_REPLICAS default_config <= r < c /\
    (down_met default_config r x \/ r = MIN_REPLICAS default_config) /\
    forall r', r < r' < c -> ~ down_met default_config r' x.
Proof.
  intros Hc Hup Hdown Hmin.
  destruct (desired_replicas_in_table c x) as (r & reason0 & Hd & _).
  { cbn [RPS_THRESHOLDS default_config] in Hc. by rewrite Hc. }
  exists r, reason0. split; [done|].
  unfold desired_replicas in Hd. rewrite Hc, Hup, Hdown in Hd.
  assert ((MIN_REPLICAS default_config <? c) = true) as Hlt
    by (by apply Z.ltb_lt).
  rewrite Hlt in Hd. cbn [andb] in Hd.
  apply scan_down_first in Hd as [(i & Hi & Hr & Hfirst)|Habsent].
  - unfold py_range_down in Hi. rewrite list_lookup_fmap in Hi.
    destruct (seqZ 0 _ !! i) as [k|] eqn:Hk; [|done].
    apply lookup_seqZ in Hk as [-> Hk]. injection Hi as <-.
    split; [lia|]. split; [done|].
    intros r' Hr'. apply (Hfirst (Z.to_nat (c - 1 - r'))); [lia|].
    unfold py_range_down. rewrite list_lookup_fmap.
    rewrite (lookup_seqZ_lt 0 _ (Z.to_nat (c - 1 - r'))) by lia.
    cbn. f_equal. lia.
  - exfalso. apply Habsent, elem_of_py_range_down. lia.
Qed.

Lemma scale_down_returns_first_level_witness :
  exists r reason0,
    desired_replicas default_config 5 (30 # 1) = Ok (r, reason0) /\
    MIN_REPLICAS default_config <= r < 5 /\
    (down_met default_config r (30 # 1) \/ r = MIN_REPLICAS default_config) /\
    forall r', r < r' < 5 -> ~ down_met default_config r' (30 # 1).
Proof.
  apply (scale_down_returns_first_level 5 (30 # 1) Infinity (Fin 90)).
  - reflexivity.
  - reflexivity.
  - reflexivity.
  - reflexivity.
Defined.

(** * Further properties of the smoothing *)

Lemma smoothing_positive_samples_witness :
  Forall (fun v => 0 < v)%Q
    (ReactiveModel.smoothed_rps <$>
       feed (ReactiveModel.update_smoothed_rps default_config)
            ReactiveModel.new_state [15%Q; 5%Q]) /\
  forall (j : nat) s prev v,
    [15%Q; 5%Q] !! (S j) = Some s ->
    (ReactiveModel.smoothed_rps <$>
       feed (ReactiveModel.update_smoothed_rps default_config)
            ReactiveModel.new_state [15%Q; 5%Q]) !! j = Some prev ->
    (ReactiveModel.smoothed_rps <$>
       feed (ReactiveModel.update_smoothed_rps default_config)
            ReactiveModel.new_state [15%Q; 5%Q]) !! (S j) = Some v ->
    v = (EMA_ALPHA default_config * s
         + (1 - EMA_ALPHA default_config) * prev)%Q.
Proof.
  apply (smoothing_positive_samples default_config [15%Q; 5%Q]).
  - vm_compute. split; [reflexivity|discriminate].
  - repeat constructor.
Defined.

(** * Further properties of the cooldown gate *)

Lemma Qtrunc_inject_Z (z : Z) : Qtrunc (inject_Z z) = z.
Proof.
  unfold Qtrunc, Qceiling.
  replace (- inject_Z z)%Q with (inject_Z (- z)) by reflexivity.
  rewrite !Qfloor_Z. destruct (Qle_bool 0 (inject_Z z)); lia.
Qed.

Lemma Qtrunc_comp (x y : Q) : (x == y)%Q -> Qtrunc x = Qtrunc y.
Proof.
  intros Hxy. unfold Qtrunc.
  rewrite (Qleb_comp 0%Q 0%Q (Qeq_refl 0%Q) x y Hxy).
  by rewrite (Qfloor_comp x y Hxy), (Qceiling_comp x y Hxy).
Qed.

(** X7: on integer times the gate of the live engine decides as the gate of
    the batch engine: for states with the same replica count and the same
    last-scale time they return the same verdict and the same reason,
    waiting time included. *)
Theorem gates_agree (config : AutoscalerConfig)
    (batch : ReactiveModel.ServiceState) (live : Reactive.ServiceState)
    (t desired : Z) :
  Reactive.current_replicas live = ReactiveModel.current_replicas batch ->
  Reactive.last_scale_time live
    = inject_Z (ReactiveModel.last_scale_time batch) ->
  Reactive.should_scale config live (inject_Z t) desired
    = ReactiveModel.should_scale config batch t desired.
Proof.
  intros Hc Hl. unfold Reactive.should_scale, ReactiveModel.should_scale.
  rewrite Hc, Hl.
  destruct (desired =? ReactiveModel.current_replicas batch); [done|].
  set (L := ReactiveModel.last_scale_time batch).
  set (cd := COOLDOWN_PERIOD config).
  assert (inject_Z t - inject_Z L == inject_Z (t - L))%Q as Heq.
  { unfold Z.sub. rewrite inject_Z_plus, inject_Z_opp. reflexivity. }
  assert (Qlt_bool (inject_Z t - inject_Z L) (inject_Z cd) = (t - L <? cd))
    as ->.
  { apply eq_true_iff_eq. rewrite Qlt_bool_iff, Z.ltb_lt, Heq.
    unfold Qlt. cbn. lia. }
  destruct (t - L <? cd); [|done]. do 2 f_equal.
  assert (inject_Z cd - (inject_Z t - inject_Z L)
          == inject_Z (cd - (t - L)))%Q as Hw.
  { rewrite Heq. unfold Z.sub at 2.
    rewrite inject_Z_plus, inject_Z_opp. reflexivity. }
  rewrite (Qtrunc_comp _ _ Hw). apply Qtrunc_inject_Z.
Qed.

Lemma gates_agree_witness :
  Reactive.should_scale default_config tracked_state (inject_Z 530) 3
  = ReactiveModel.should_scale default_config
      {| ReactiveModel.current_replicas := 2;
         ReactiveModel.raw_rps := 10;
         ReactiveModel.smoothed_rps := 10;
         ReactiveModel.last_scale_time := 500;
         ReactiveModel.scale_history := [] |} 530 3.
Proof.
  apply (gates_agree default_config _ tracked_state 530 3); reflexivity.
Defined.

(** * Further properties of the batch driver *)

(** ** One step of the loop *)

Lemma process_row_step (config : AutoscalerConfig)
    (sim sim' : ReactiveModel.Sim) (t : Z) (s : string) (v : Q) :
  ReactiveModel.process_row config sim (t, s, v) = Ok sim' ->
  exists e st',
    ReactiveModel.service_states sim'
      = <[s := st']> (ReactiveModel.service_states sim) /\
    ReactiveModel.events sim' = ReactiveModel.events sim ++ [e] /\
    ReactiveModel.ev_service e = s /\
    ReactiveModel.upscales sim' = ReactiveModel.upscales sim
      + (if decide (ReactiveModel.ev_action e = ReactiveModel.UPSCALE)
         then 1 else 0) /\
    ReactiveModel.downscales sim' = ReactiveModel.downscales sim
      + (if decide (ReactiveModel.ev_action e = ReactiveModel.DOWNSCALE)
         then 1 else 0) /\
    ReactiveModel.cooldown_blocks sim' = ReactiveModel.cooldown_blocks sim
      + (if decide (ReactiveModel.ev_action e = ReactiveModel.BLOCKED)
         then 1 else 0) /\
    ReactiveModel.total_scales sim' = ReactiveModel.total_scales sim
      + (ReactiveModel.upscales sim' - ReactiveModel.upscales sim)
      + (ReactiveModel.downscales sim' - ReactiveModel.downscales sim) /\
    event_ok (COOLDOWN_PERIOD config)
      (ReactiveModel.current_replicas (state_of sim s),
       ReactiveModel.last_scale_time (state_of sim s)) e /\
    (ReactiveModel.current_replicas st', ReactiveModel.last_scale_time st')
      = event_step (ReactiveModel.current_replicas (state_of sim s),
                    ReactiveModel.last_scale_time (state_of sim s)) e /\
    ReactiveModel.scale_history st'
      = ReactiveModel.scale_history (state_of sim s) ++ [event_entry e] /\
    ReactiveModel.smoothed_rps st' = ReactiveModel.ev_smoothed_rps e /\
    ReactiveModel.raw_rps st' = ReactiveModel.ev_raw_rps e.
Proof.
  unfold ReactiveModel.process_row, state_of,
    ReactiveModel.desired_replicas_with_hysteresis.
  set (old := default ReactiveModel.new_state
                (ReactiveModel.service_states sim !! s)).
  cbn [ReactiveModel.update_smoothed_rps ReactiveModel.current_replicas].
  set (sm := if Qeq_bool (ReactiveModel.smoothed_rps old) 0 then v else _).
  destruct (desired_replicas config (ReactiveModel.current_replicas old) sm)
    as [[d r]|k] eqn:Hd; [|done].
  cbn [mbind outcome_bind]. unfold ReactiveModel.should_scale.
  cbn [ReactiveModel.current_replicas ReactiveModel.last_scale_time].
  destruct (Z.eqb_spec d (ReactiveModel.current_replicas old)) as [->|Hne].
  - rewrite Z.ltb_irrefl. intros [= <-]. eexists _, _.
    unfold event_ok, event_step, event_entry. cbn.
    repeat split; first [reflexivity | lia].
  - destruct (Z.ltb_spec (t - ReactiveModel.last_scale_time old)
                (COOLDOWN_PERIOD config));
      (destruct (Z.ltb_spec (ReactiveModel.current_replicas old) d);
       [|destruct (Z.ltb_spec d (ReactiveModel.current_replicas old)); [|lia]]);
      intros [= <-]; eexists _, _;
      unfold event_ok, event_step, event_entry; cbn;
      repeat split; cbn; first [reflexivity | lia].
Qed.

(** ** The summary counts *)

Lemma count_action_snoc (a : ReactiveModel.Action)
    (evs : list ReactiveModel.Event) (e : ReactiveModel.Event) :
  count_action a (evs ++ [e])
  = count_action a evs
    + (if decide (ReactiveModel.ev_action e = a) then 1 else 0).
Proof.
  unfold count_action. rewrite filter_app, length_app.
  rewrite filter_cons, filter_nil. case_decide; cbn; lia.
Qed.

Lemma process_row_counters (config : AutoscalerConfig)
    (sim sim' : ReactiveModel.Sim) (row : Z * string * Q) :
  counters_inv sim ->
  ReactiveModel.process_row config sim row = Ok sim' ->
  counters_inv sim'.
Proof.
  destruct row as [[t s] v]. intros (Hup & Hdown & Hblocked & Htotal) Hrow.
  apply process_row_step in Hrow
    as (e & st' & _ & Hev & _ & Hup' & Hdown' & Hblocked' & Htotal' & _).
  unfold counters_inv. rewrite Hev, !count_action_snoc. lia.
Qed.

(** ** The log of a service *)

Lemma trace_ok_snoc (cooldown : Z) (st : Z * Z)
    (evs : list ReactiveModel.Event) (e : ReactiveModel.Event) :
  trace_ok cooldown st (evs ++ [e]) <->
  trace_ok cooldown st evs /\ event_ok cooldown (foldl event_step st evs) e.
Proof.
  revert st. induction evs as [|e0 evs IH]; intros st; cbn; [tauto|].
  rewrite IH. tauto.
Qed.

Lemma events_of_snoc (s : string) (evs : list ReactiveModel.Event)
    (e : ReactiveModel.Event) :
  events_of s (evs ++ [e])
  = events_of s evs ++ (if decide (ReactiveModel.ev_service e = s)
                        then [e] else []).
Proof.
  unfold events_of. rewrite filter_app, filter_cons, filter_nil.
  by case_decide.
Qed.

Lemma process_row_trace (config : AutoscalerConfig)
    (sim sim' : ReactiveModel.Sim) (row : Z * string * Q) :
  trace_inv config sim ->
  ReactiveModel.process_row config sim row = Ok sim' ->
  trace_inv config sim'.
Proof.
  destruct row as [[t s] v]. intros Hinv Hrow.
  apply process_row_step in Hrow
    as (e & st' & Hst & Hev & Hs & _ & _ & _ & _ & Hok & Hstep & Hhist
        & Hsm & Hraw).
  intros s0. destruct (Hinv s0) as (Htrace & Hend & Hh & Hsm0 & Hraw0).
  rewrite Hev, events_of_snoc. unfold state_of in *. rewrite Hst.
  rewrite Hs. case_decide as Heq.
  - subst s0. rewrite lookup_insert_eq. cbn [default from_option id].
    rewrite trace_ok_snoc, foldl_snoc, fmap_app, last_snoc, Hend.
    rewrite Hhist, Hh. cbn. by rewrite Hsm, Hraw, Hstep.
  - rewrite lookup_insert_ne by done. by rewrite app_nil_r.
Qed.

Lemma run_trace (config : AutoscalerConfig) (rows : list (Z * string * Q))
    (sim : ReactiveModel.Sim) :
  ReactiveModel.run config ReactiveModel.initial_sim rows = Ok sim ->
  trace_inv config sim.
Proof.
  apply (run_invariant config (trace_inv config)).
  - intros ????. by apply process_row_trace.
  - intros s. unfold state_of. cbn. by rewrite lookup_empty.
Qed.

(** ** The order of the result table *)

Lemma sorted_lookup (keys : list (Z * string)) (i j : nat)
    (k1 k2 : Z * string) :
  StronglySorted key_lt keys -> (i < j)%nat ->
  keys !! i = Some k1 -> keys !! j = Some k2 -> key_lt k1 k2.
Proof.
  intros Hsorted. revert i j.
  induction Hsorted as [|k keys _ IH Hall]; intros i j Hij Hi Hj; [done|].
  destruct j as [|j]; [lia|]. cbn in Hj. destruct i as [|i]; cbn in Hi.
  - injection Hi as <-. rewrite Forall_forall in Hall.
    by apply Hall, list_elem_of_lookup_2 with j.
  - apply (IH i j); [lia|done..].
Qed.

Lemma key_lt_cases (b1 b2 : Z) (s1 s2 : string) :
  key_lt (b1, s1) (b2, s2) <->
  b1 < b2 \/ (b1 = b2 /\ String.compare s1 s2 = Lt).
Proof.
  unfold key_lt, ReactiveModel.key_compare. cbn.
  destruct (Z.compare_spec b1 b2) as [->|Hlt|Hgt].
  - split; [intros H; by right|intros [?|[_ ?]]; [lia|done]].
  - split; [intros _; by left|done].
  - split; [done|intros [?|[? _]]; lia].
Qed.

(** ** Rows that are not numeric *)

Lemma dropna_numeric (df : list ReactiveModel.Row) :
  ReactiveModel.dropna (filter numeric_row df) = ReactiveModel.dropna df.
Proof.
  unfold ReactiveModel.dropna.
  induction df as [|r df IH]; [done|]. rewrite filter_cons.
  destruct (decide (numeric_row r)) as [Hr|Hr]; cbn; rewrite IH.
  - done.
  - unfold numeric_row in Hr.
    destruct (ReactiveModel.timestamp r), (ReactiveModel.request_rate r);
      try done.
    exfalso. apply Hr. split; by eexists.
Qed.

(** X13: rows whose timestamp or rate is not numeric have no effect on the
    batch run: the run on a dataset is the run on its numeric rows, for
    every configuration. *)
Theorem batch_ignores_malformed_rows (config : AutoscalerConfig)
    (df : list ReactiveModel.Row) :
  ReactiveModel.main config df
  = ReactiveModel.main config (filter numeric_row df).
Proof. unfold ReactiveModel.main. by rewrite dropna_numeric. Qed.

(** ** The order of the input rows *)

Lemma grouped_key_iff (rows : list (string * Q * Q)) (b : Z) (it : string) :
  (b, it) ∈ (ReactiveModel.grouped rows).*1 <-> rates_of b it rows <> [].
Proof.
  destruct (grouped_spec rows) as [_ Hkeys].
  destruct (Hkeys b it) as [Hnone Hsome]. split.
  - intros Hin Hr. by apply Hnone.
  - intros (total & Hin & _)%Hsome. apply list_elem_of_fmap.
    by exists (b, it, total).
Qed.

(** ** Decisions and smoothed rates in the result table *)

Lemma process_row_decision (config : AutoscalerConfig)
    (sim sim' : ReactiveModel.Sim) (t : Z) (s : string) (v : Q) :
  ReactiveModel.process_row config sim (t, s, v) = Ok sim' ->
  exists e,
    ReactiveModel.events sim' = ReactiveModel.events sim ++ [e] /\
    ReactiveModel.ev_service e = s /\
    ReactiveModel.ev_raw_rps e = v /\
    ReactiveModel.ev_smoothed_rps e
      = (if Qeq_bool (ReactiveModel.smoothed_rps (state_of sim s)) 0 then v
         else (EMA_ALPHA config * v
               + (1 - EMA_ALPHA config)
                 * ReactiveModel.smoothed_rps (state_of sim s))%Q) /\
    decision_ok config e.
Proof.
  unfold ReactiveModel.process_row, state_of,
    ReactiveModel.desired_replicas_with_hysteresis.
  set (old := default ReactiveModel.new_state
                (ReactiveModel.service_states sim !! s)).
  cbn [ReactiveModel.update_smoothed_rps ReactiveModel.current_replicas].
  set (sm := if Qeq_bool (ReactiveModel.smoothed_rps old) 0 then v else _).
  destruct (desired_replicas config (ReactiveModel.current_replicas old) sm)
    as [[d r]|k] eqn:Hd; [|done].
  cbn [mbind outcome_bind]. unfold ReactiveModel.should_scale.
  cbn [ReactiveModel.current_replicas ReactiveModel.last_scale_time].
  destruct (Z.eqb_spec d (ReactiveModel.current_replicas old)) as [->|Hne].
  - rewrite Z.ltb_irrefl. intros [= <-]. eexists.
    repeat (split; [reflexivity|]). by exists (ReactiveModel.current_replicas old), r.
  - destruct (Z.ltb_spec (t - ReactiveModel.last_scale_time old)
                (COOLDOWN_PERIOD config));
      (destruct (Z.ltb_spec (ReactiveModel.current_replicas old) d);
       [|destruct (Z.ltb_spec d (ReactiveModel.current_replicas old)); [|lia]]);
      intros [= <-]; eexists; repeat (split; [reflexivity|]);
      exists d, r; cbn; (split; [done|]); split; first [done | by eexists].
Qed.

Lemma feed_smoothed_snoc (config : AutoscalerConfig)
    (st : ReactiveModel.ServiceState) (l : list Q) (x : Q) :
  ReactiveModel.smoothed_rps <$>
    feed (ReactiveModel.update_smoothed_rps config) st (l ++ [x])
  = (ReactiveModel.smoothed_rps <$>
       feed (ReactiveModel.update_smoothed_rps config) st l)
    ++ [ let prev :=
           default (ReactiveModel.smoothed_rps st)
             (last (ReactiveModel.smoothed_rps <$>
                      feed (ReactiveModel.update_smoothed_rps config) st l)) in
         if Qeq_bool prev 0 then x
         else (EMA_ALPHA config * x + (1 - EMA_ALPHA config) * prev)%Q ].
Proof.
  assert (forall (a b : Q) (k : list Q),
             default a (last (b :: k)) = default b (last k)) as Hlast.
  { intros a b k. revert a b. induction k as [|c k IHk]; intros a b; [done|].
    by rewrite last_cons_cons, (IHk a c), (IHk b c). }
  revert st. induction l as [|y l IH]; intros st; [done|].
  cbn [app feed]. rewrite !fmap_cons, IH. cbn [app]. cbv zeta.
  by rewrite Hlast.
Qed.

Lemma process_row_smoothed (config : AutoscalerConfig)
    (sim sim' : ReactiveModel.Sim) (row : Z * string * Q) :
  trace_inv config sim ->
  (forall s, smoothed_column config (events_of s (ReactiveModel.events sim))) ->
  ReactiveModel.process_row config sim row = Ok sim' ->
  forall s, smoothed_column config (events_of s (ReactiveModel.events sim')).
Proof.
  destruct row as [[t s] v]. intros Htrace Hcol Hrow s0.
  apply process_row_decision in Hrow as (e & -> & Hs & Hraw & Hsm & _).
  rewrite events_of_snoc, Hs. case_decide as Heq.
  2:{ rewrite app_nil_r. apply Hcol. }
  subst s0. unfold smoothed_column. rewrite !fmap_app. cbn [fmap list_fmap].
  pose proof (Hcol s) as Hc. unfold smoothed_column in Hc.
  rewrite feed_smoothed_snoc. cbv zeta. rewrite <- !Hc. f_equal.
  rewrite Hsm, Hraw, fmap_last.
  destruct (Htrace s) as (_ & _ & _ & -> & _). done.
Qed.

Lemma run_smoothed (config : AutoscalerConfig) (rows : list (Z * string * Q))
    (sim : ReactiveModel.Sim) :
  ReactiveModel.run config ReactiveModel.initial_sim rows = Ok sim ->
  forall s, smoothed_column config (events_of s (ReactiveModel.events sim)).
Proof.
  intros Hrun.
  apply (run_invariant config
           (fun sim => trace_inv config sim /\
              forall s, smoothed_column config
                          (events_of s (ReactiveModel.events sim))))
    in Hrun; [apply Hrun|..].
  - intros sim0 row sim1 [Htrace Hcol] Hrow. split.
    + by eapply process_row_trace.
    + by eapply process_row_smoothed.
  - split; [|done]. intros s. unfold state_of. cbn. by rewrite lookup_empty.
Qed.

Lemma run_decisions (config : AutoscalerConfig)
    (rows : list (Z * string * Q)) (sim : ReactiveModel.Sim) :
  ReactiveModel.run config ReactiveModel.initial_sim rows = Ok sim ->
  Forall (decision_ok config) (ReactiveModel.events sim).
Proof.
  apply (run_invariant config
           (fun sim => Forall (decision_ok config) (ReactiveModel.events sim))).
  - intros sim0 [[t s] v] sim1 Hall Hrow.
    apply process_row_decision in Hrow as (e & -> & _ & _ & _ & He).
    apply Forall_app. split; [done|]. by constructor.
  - constructor.
Qed.

(** * Further properties of the live driver *)

Section LiveStep.
Import Reactive.

(** Case analysis on the path that [process_service] takes. *)
Ltac service_cases :=
  unfold process_service; cbn [update_smoothed_rps];
  repeat match goal with
    | |- context [match ?x with _ => _ end] =>
        lazymatch x with
        | context [match _ with _ => _ end] => fail
        | _ => destruct x eqn:?
        end
    end.

Lemma process_service_other (config : AutoscalerConfig)
    (states : gmap string ServiceState) (service other : string)
    (world : Responses) :
  other <> service ->
  step_states (process_service config states service world) !! other
  = states !! other.
Proof.
  intros Hne. service_cases; cbn; by rewrite lookup_insert_ne.
Qed.


(** X15: processing a service leaves the states of all other services as
    they were, whatever the collaborators answer and whether or not an
    exception is raised. *)
Theorem process_service_isolation (config : AutoscalerConfig)
    (states : gmap string ServiceState) (service other : string)
    (world : Responses) :
  other <> service ->
  step_states (process_service config states service world) !! other
  = states !! other.
Proof.
  intros Hne. service_cases; cbn; by rewrite lookup_insert_ne.
Qed.

Lemma process_service_isolation_witness :
  step_states
    (process_service default_config {["web"%string := tracked_state]}
       "api" lookup_fails) !! "web"%string
  = ({["web"%string := tracked_state]} : gmap string ServiceState)
      !! "web"%string.
Proof.
  apply (process_service_isolation default_config
           {["web"%string := tracked_state]} "api" "web" lookup_fails).
  discriminate.
Defined.

(** X16: the live driver asks the control plane for a new replica count
    only when the count differs from the one the control plane reported
    and the cooldown period has passed since the last-scale time of the
    state. *)
Theorem process_service_respects_cooldown (config : AutoscalerConfig)
    (states : gmap string ServiceState) (service : string)
    (world : Responses) (d : Z) :
  step_scale_request (process_service config states service world) = Some d ->
  exists k,
    get_current_replicas world = Some k /\ d <> k /\
    (inject_Z (COOLDOWN_PERIOD config)
     <= time_gate world
        - last_scale_time (default new_state (states !! service)))%Q.
Proof.
  service_cases; cbn; intros Hreq; try discriminate; injection Hreq as <-.
  all: repeat match goal with
       | H : negb (_ =? _) = true |- _ =>
           cbn in H; apply negb_true_iff, Z.eqb_neq in H
       | H : should_scale _ _ _ _ = (true, _) |- _ =>
           unfold should_scale in H; cbn in H; revert H;
           match goal with
           | |- context [?a =? ?b] => destruct (Z.eqb_spec a b); [lia|]
           end;
           match goal with
           | |- context [Qlt_bool ?a ?b] =>
               destruct (Qlt_bool_spec a b); [done|]
           end; intros _
       end.
  all: eexists; split; [reflexivity|]; split; [done|lra].
Qed.

Lemma process_service_respects_cooldown_witness :
  exists k,
    get_current_replicas surge_at_one = Some k /\ 2 <> k /\
    (inject_Z (COOLDOWN_PERIOD default_config)
     <= time_gate surge_at_one
        - last_scale_time
            (default new_state
               ((∅ : gmap string ServiceState) !! "web"%string)))%Q.
Proof.
  apply (process_service_respects_cooldown default_config ∅ "web"
           surge_at_one 2).
  reflexivity.
Defined.

(** X17: the history and the last-scale time of a state change only through
    a successful actuation.  When the driver asked for the count [d] and the
    control plane accepted, the state holds [d], the time read after the
    actuation, and one more history record, from the reported count to [d];
    when the control plane refused, or no request was made, history and
    last-scale time are as before (after a refusal the state holds the
    count the control plane reported). *)
Theorem process_service_history (config : AutoscalerConfig)
    (states : gmap string ServiceState) (service : string)
    (world : Responses) :
  exists state,
    step_states (process_service config states service world) !! service
      = Some state /\
    match step_scale_request (process_service config states service world)
    with
    | Some d =>
        if scale_deployment world d
        then
          current_replicas state = d /\
          last_scale_time state = time_applied world /\
          exists entry,
            scale_history state
              = scale_history (default new_state (states !! service))
                ++ [entry] /\
            sr_to entry = d /\
            get_current_replicas world = Some (sr_from entry) /\
            sr_action entry
              = (if sr_from entry <? d then UPSCALE else DOWNSCALE) /\
            sr_timestamp entry = time_history world /\
            sr_rps entry = smoothed_rps state
        else
          get_current_replicas world = Some (current_replicas state) /\
          scale_history state
            = scale_history (default new_state (states !! service)) /\
          last_scale_time state
            = last_scale_time (default new_state (states !! service))
    | None =>
        scale_history state
          = scale_history (default new_state (states !! service)) /\
        last_scale_time state
          = last_scale_time (default new_state (states !! service))
    end.
Proof.
  service_cases; simplify_eq/=; rewrite lookup_insert_eq; eexists;
    (split; [reflexivity|]); cbn; try congruence;
    first [ done
          | split; [done|]; split; [done|]; eexists;
            split; [reflexivity|]; cbn;
            match goal with H : (_ <? _) = _ |- _ => rewrite H end; done ].
Qed.

(** X18: with the source's configuration and a rate at hand, the live
    driver raises [KeyError] exactly when the control plane reports a
    replica count outside the table's rows 1..5 (0, or 6 and more, within
    [MAX_REPLICAS] or not); it then requests no scaling, and the state
    already holds the reported count and the new raw rate. *)
Theorem process_service_outside_table
    (states : gmap string ServiceState) (service : string)
    (world : Responses) (rps : Q) (k : Z) :
  get_rps world = Some rps ->
  get_current_replicas world = Some k ->
  step_raised (process_service default_config states service world)
    = (if decide (1 <= k <= 5) then None else Some k) /\
  (~ (1 <= k <= 5) ->
   step_scale_request (process_service default_config states service world)
     = None /\
   exists state,
     step_states (process_service default_config states service world)
       !! service = Some state /\
     current_replicas state = k /\ raw_rps state = rps).
Proof.
  intros Hrps Hk. unfold process_service. rewrite Hrps, Hk.
  cbn [update_smoothed_rps set_current_replicas current_replicas].
  case_decide as Hin.
  - split; [|done].
    match goal with
    | |- context [desired_replicas default_config k ?x] =>
        destruct (desired_replicas_in_table k x) as (d & r & -> & _)
    end; [by apply default_thresholds_dom|].
    repeat case_match; done.
  - rewrite desired_replicas_outside_table by done. cbn.
    split; [done|]. intros _. split; [done|].
    rewrite lookup_insert_eq. by eexists.
Qed.

Lemma process_service_outside_table_witness :
  step_raised
    (process_service default_config ∅ "web"
       {| get_rps := Some 20%Q; get_current_replicas := Some 6;
          scale_deployment := fun _ => true; time_gate := 1000;
          time_applied := 1000; time_history := 1000 |})
    = (if decide (1 <= 6 <= 5) then None else Some 6) /\
  (~ (1 <= 6 <= 5) ->
   step_scale_request
     (process_service default_config ∅ "web"
        {| get_rps := Some 20%Q; get_current_replicas := Some 6;
           scale_deployment := fun _ => true; time_gate := 1000;
           time_applied := 1000; time_history := 1000 |})
     = None /\
   exists state,
     step_states
       (process_service default_config ∅ "web"
          {| get_rps := Some 20%Q; get_current_replicas := Some 6;
             scale_deployment := fun _ => true; time_gate := 1000;
             time_applied := 1000; time_history := 1000 |})
       !! "web"%string = Some state /\
     current_replicas state = 6 /\ raw_rps state = 20%Q).
Proof.
  apply (process_service_outside_table ∅ "web" _ 20 6); reflexivity.
Defined.

(** X19: when the metrics source has no rate for the service, the
    iteration requests no scaling and raises nothing, and the state of the
    service keeps its replica count, rates, last-scale time and history;
    only its name is set. *)
Theorem process_service_without_metrics (config : AutoscalerConfig)
    (states : gmap string ServiceState) (service : string)
    (world : Responses) :
  get_rps world = None ->
  step_scale_request (process_service config states service world) = None /\
  step_raised (process_service config states service world) = None /\
  step_states (process_service config states service world)
    = <[service := set_service_name (default new_state (states !! service))
                     service]> states.
Proof. intros Hrps. unfold process_service. by rewrite Hrps. Qed.

Lemma process_service_without_metrics_witness :
  step_scale_request
    (process_service default_config {["web"%string := tracked_state]} "web"
       {| get_rps := None; get_current_replicas := Some 2;
          scale_deployment := fun _ => true; time_gate := 1000;
          time_applied := 1000; time_history := 1000 |}) = None /\
  step_raised
    (process_service default_config {["web"%string := tracked_state]} "web"
       {| get_rps := None; get_current_replicas := Some 2;
          scale_deployment := fun _ => true; time_gate := 1000;
          time_applied := 1000; time_history := 1000 |}) = None /\
  step_states
    (process_service default_config {["web"%string := tracked_state]} "web"
       {| get_rps := None; get_current_replicas := Some 2;
          scale_deployment := fun _ => true; time_gate := 1000;
          time_applied := 1000; time_history := 1000 |})
    = <["web"%string :=
          set_service_name
            (default new_state
               (({["web"%string := tracked_state]}
                 : gmap string ServiceState) !! "web"%string))
            "web"]> {["web"%string := tracked_state]}.
Proof.
  apply (process_service_without_metrics default_config
           {["web"%string := tracked_state]} "web").
  reflexivity.
Defined.

(** ** One iteration of the control loop *)

Lemma process_service_local (config : AutoscalerConfig)
    (states1 states2 : gmap string ServiceState) (service : string)
    (world : Responses) :
  states1 !! service = states2 !! service ->
  step_scale_request (process_service config states1 service world)
    = step_scale_request (process_service config states2 service world) /\
  step_raised (process_service config states1 service world)
    = step_raised (process_service config states2 service world) /\
  step_states (process_service config states1 service world) !! service
    = step_states (process_service config states2 service world) !! service.
Proof.
  intros Hsame. unfold process_service. rewrite Hsame.
  cbn [update_smoothed_rps].
  repeat match goal with
    | |- context [match ?x with _ => _ end] =>
        lazymatch x with
        | context [match _ with _ => _ end] => fail
        | _ => destruct x eqn:?
        end
    end; cbn; by rewrite !lookup_insert_eq.
Qed.

Lemma control_loop_snoc (config : AutoscalerConfig)
    (states : gmap string ServiceState)
    (deployments : list (string * Responses)) (service : string)
    (world : Responses) :
  control_loop_iteration config states (deployments ++ [(service, world)])
  = (step_states
       (process_service config
          (control_loop_iteration config states deployments).1 service world),
     (control_loop_iteration config states deployments).2
     ++ [ {| report_service := service;
             report_scale_request :=
               step_scale_request
                 (process_service config
                    (control_loop_iteration config states deployments).1
                    service world);
             report_raised :=
               step_raised
                 (process_service config
                    (control_loop_iteration config states deployments).1
                    service world) |} ]).
Proof.
  unfold control_loop_iteration. rewrite foldl_snoc.
  by destruct (foldl _ _ deployments).
Qed.

Lemma control_loop_untouched (config : AutoscalerConfig)
    (states : gmap string ServiceState)
    (deployments : list (string * Responses)) (service : string) :
  service ∉ deployments.*1 ->
  (control_loop_iteration config states deployments).1 !! service
  = states !! service.
Proof.
  induction deployments as [|[s w] deployments IH] using rev_ind; [done|].
  rewrite fmap_app, not_elem_of_app, control_loop_snoc. cbn.
  intros [Hl Hs]. rewrite process_service_other; [by apply IH|].
  intros ->. apply Hs, list_elem_of_singleton. done.
Qed.

(** X20: one iteration of the control loop processes every listed
    deployment, in order, also after one of them raised; and for a
    deployment that is listed once, the state it ends with, its scaling
    request and its exception are those of processing it alone on the
    states the iteration started with: what happens to the other
    deployments, exceptions included, does not affect it. *)
Theorem control_loop_isolates_services (config : AutoscalerConfig)
    (states : gmap string ServiceState)
    (deployments : list (string * Responses)) (service : string)
    (world : Responses) :
  NoDup (deployments.*1) ->
  (service, world) ∈ deployments ->
  report_service <$> (control_loop_iteration config states deployments).2
    = deployments.*1 /\
  (control_loop_iteration config states deployments).1 !! service
    = step_states (process_service config states service world) !! service /\
  {| report_service := service;
     report_scale_request :=
       step_scale_request (process_service config states service world);
     report_raised :=
       step_raised (process_service config states service world) |}
    ∈ (control_loop_iteration config states deployments).2.
Proof.
  intros Hnodup Hin. split.
  { clear. induction deployments as [|[s w] deployments IH] using rev_ind;
      [done|].
    rewrite control_loop_snoc. cbn. by rewrite !fmap_app, IH. }
  revert Hnodup Hin.
  induction deployments as [|[s w] deployments IH] using rev_ind;
    [by intros _ ?%elem_of_nil|].
  rewrite fmap_app, control_loop_snoc. cbn.
  intros [Hl [Hdisj _]]%NoDup_app [Hin|Hin%list_elem_of_singleton]%elem_of_app.
  - assert (service <> s) as Hne.
    { intros ->. apply (Hdisj s); [|by apply list_elem_of_singleton].
      apply list_elem_of_fmap. by exists (s, world). }
    destruct (IH Hl Hin) as [Hstate Hreport].
    rewrite process_service_other by done.
    split; [done|]. apply elem_of_app. by left.
  - injection Hin as <- <-.
    assert (service ∉ deployments.*1) as Hnot.
    { intros Hs. apply (Hdisj service Hs). by apply list_elem_of_singleton. }
    destruct (process_service_local config
                (control_loop_iteration config states deployments).1
                states service world) as (Hreq & Hraise & Hstate).
    { by apply control_loop_untouched. }
    split; [done|]. apply elem_of_app. right.
    apply list_elem_of_singleton. by rewrite Hreq, Hraise.
Qed.

Lemma control_loop_isolates_services_witness :
  report_service <$>
    (control_loop_iteration default_config {["web"%string := tracked_state]}
       [("api"%string, lookup_fails); ("web"%string, lookup_fails)]).2
    = [("api"%string, lookup_fails); ("web"%string, lookup_fails)].*1 /\
  (control_loop_iteration default_config {["web"%string := tracked_state]}
     [("api"%string, lookup_fails); ("web"%string, lookup_fails)]).1
    !! "web"%string
    = step_states
        (process_service default_config {["web"%string := tracked_state]}
           "web" lookup_fails) !! "web"%string /\
  {| report_service := "web";
     report_scale_request :=
       step_scale_request
         (process_service default_config {["web"%string := tracked_state]}
            "web" lookup_fails);
     report_raised :=
       step_raised
         (process_service default_config {["web"%string := tracked_state]}
            "web" lookup_fails) |}
    ∈ (control_loop_iteration default_config
         {["web"%string := tracked_state]}
         [("api"%string, lookup_fails); ("web"%string, lookup_fails)]).2.
Proof.
  apply (control_loop_isolates_services default_config
           {["web"%string := tracked_state]}
           [("api"%string, lookup_fails); ("web"%string, lookup_fails)]
           "web" lookup_fails).
  - cbn. apply NoDup_cons. split; [|apply NoDup_singleton].
    intros Hin%list_elem_of_singleton. discriminate.
  - apply elem_of_cons. right. apply elem_of_cons. by left.
Defined.
End LiveStep.

(** * The two drivers *)

Lemma Qlt_bool_inject_Z_sub (t L cd : Z) :
  Qlt_bool (inject_Z t - inject_Z L) (inject_Z cd) = (t - L <? cd).
Proof.
  apply eq_true_iff_eq. rewrite Qlt_bool_iff, Z.ltb_lt.
  unfold Qlt. cbn. lia.
Qed.

(** X24: a step of the batch loop is a step of the live driver in which
    the control plane reports the tracked replica count and accepts every
    request, and the clock shows the time bucket: from corresponding
    states, with the same rate, the live driver raises nothing, ends in the
    state that corresponds to the one of the batch driver, and requests a
    scaling exactly when the batch driver changed the replica count, to
    the same count. *)
Theorem live_step_matches_batch_step (config : AutoscalerConfig)
    (sim sim' : ReactiveModel.Sim)
    (states : gmap string Reactive.ServiceState)
    (t : Z) (s : string) (v : Q) (world : Reactive.Responses) :
  corresponds (state_of sim s) (default Reactive.new_state (states !! s)) ->
  Reactive.get_rps world = Some v ->
  Reactive.get_current_replicas world
    = Some (ReactiveModel.current_replicas (state_of sim s)) ->
  (forall d, Reactive.scale_deployment world d = true) ->
  Reactive.time_gate world = inject_Z t ->
  Reactive.time_applied world = inject_Z t ->
  ReactiveModel.process_row config sim (t, s, v) = Ok sim' ->
  Reactive.step_raised (Reactive.process_service config states s world)
    = None /\
  Reactive.step_scale_request (Reactive.process_service config states s world)
    = (if decide (ReactiveModel.current_replicas (state_of sim' s)
                  = ReactiveModel.current_replicas (state_of sim s))
       then None
       else Some (ReactiveModel.current_replicas (state_of sim' s))) /\
  exists live,
    Reactive.step_states (Reactive.process_service config states s world) !! s
      = Some live /\
    corresponds (state_of sim' s) live.
Proof.
  intros (Hc & Hraw & Hsm & Hlast) Hrps Hk Hok Hgate Happlied.
  unfold ReactiveModel.process_row, Reactive.process_service, state_of in *.
  unfold ReactiveModel.desired_replicas_with_hysteresis.
  rewrite Hrps, Hk.
  set (old := default ReactiveModel.new_state
                (ReactiveModel.service_states sim !! s)) in *.
  set (oldl := default Reactive.new_state (states !! s)) in *.
  cbn [ReactiveModel.update_smoothed_rps ReactiveModel.current_replicas
       Reactive.update_smoothed_rps Reactive.set_service_name
       Reactive.set_current_replicas Reactive.current_replicas
       Reactive.smoothed_rps].
  rewrite Hsm.
  set (sm := if Qeq_bool (ReactiveModel.smoothed_rps old) 0 then v else _).
  destruct (desired_replicas config (ReactiveModel.current_replicas old) sm)
    as [[d r]|k] eqn:Hd; [|done].
  cbn [mbind outcome_bind].
  unfold ReactiveModel.should_scale, Reactive.should_scale.
  unfold Reactive.set_current_replicas, Reactive.set_service_name.
  cbn [ReactiveModel.current_replicas ReactiveModel.last_scale_time
       Reactive.current_replicas Reactive.last_scale_time
       Reactive.service_name Reactive.scale_history Reactive.raw_rps
       Reactive.smoothed_rps].
  rewrite Hgate, Hlast, Qlt_bool_inject_Z_sub, Happlied.
  destruct (Z.eqb_spec d (ReactiveModel.current_replicas old)) as [->|Hne].
  - rewrite Z.ltb_irrefl. intros [= <-]. cbn.
    rewrite !lookup_insert_eq. cbn. rewrite decide_True by done.
    split; [done|]. split; [done|]. eexists. split; [reflexivity|].
    by repeat split.
  - destruct (Z.ltb_spec (t - ReactiveModel.last_scale_time old)
                (COOLDOWN_PERIOD config));
      (destruct (Z.ltb_spec (ReactiveModel.current_replicas old) d);
       [|destruct (Z.ltb_spec d (ReactiveModel.current_replicas old)); [|lia]]);
      intros [= <-]; cbn; rewrite ?Hok; cbn; rewrite !lookup_insert_eq; cbn;
      (rewrite decide_True by done) || (rewrite decide_False by done);
      (split; [done|]); (split; [done|]); eexists; (split; [reflexivity|]);
      by repeat split.
Qed.

Lemma live_step_matches_batch_step_witness :
  Reactive.step_raised
    (Reactive.process_service default_config ∅ "web" replay_at_1000) = None /\
  Reactive.step_scale_request
    (Reactive.process_service default_config ∅ "web" replay_at_1000)
    = (if decide (ReactiveModel.current_replicas (state_of replay_sim "web")
                  = ReactiveModel.current_replicas
                      (state_of ReactiveModel.initial_sim "web"))
       then None
       else Some (ReactiveModel.current_replicas (state_of replay_sim "web")))
  /\
  exists live,
    Reactive.step_states
      (Reactive.process_service default_config ∅ "web" replay_at_1000)
      !! "web"%string = Some live /\
    corresponds (state_of replay_sim "web") live.
Proof.
  apply (live_step_matches_batch_step default_config
           ReactiveModel.initial_sim replay_sim ∅ 1000 "web" 15
           replay_at_1000).
  - vm_compute. repeat split.
  - reflexivity.
  - reflexivity.
  - reflexivity.
  - reflexivity.
  - reflexivity.
  - reflexivity.
Defined.

(** * The scale-up scan, for any configuration *)

Lemma scan_up_reaches (config : AutoscalerConfig) (x : Q) (t : threshold)
    (a n : Z) :
  (forall k, a <= k < a + n ->
     (forall j, a <= j < k -> ~ up_exceeds config j x) ->
     is_Some (RPS_THRESHOLDS config !! k)) ->
  exists r reason0, scan_up config x t (seqZ a n) = Ok (r, reason0).
Proof.
  remember (Z.to_nat n) as m eqn:Hm. revert a n Hm.
  induction m as [|m IH]; intros a n Hm Hrows.
  - rewrite seqZ_nil by lia. cbn. by eauto.
  - rewrite seqZ_cons by lia. cbn [scan_up].
    destruct (Hrows a) as [[up down] Hrow]; [lia|intros j Hj; lia|].
    rewrite Hrow. destruct (rate_lt x up) eqn:Hlt; [by eauto|].
    apply IH; [lia|]. intros k Hk Hbefore. apply Hrows; [lia|].
    intros j Hj. destruct (decide (j = a)) as [->|Hne].
    + intros (up' & down' & Hrow' & Hlt'). congruence.
    + apply Hbefore. lia.
Qed.

(** With the source's table a finite rate never runs the scan off the
    table: the threshold of row 5 is infinite. *)
Lemma default_rows_present (c : Z) (x : Q) (up down : threshold) :
  RPS_THRESHOLDS default_config !! c = Some (up, down) ->
  rate_ge x up = true ->
  scan_rows_present default_config c x.
Proof.
  intros Hc Hge k Hk Hbefore. cbn [RPS_THRESHOLDS default_config].
  apply default_thresholds_dom.
  assert (1 <= c <= 5) as Hdom.
  { apply default_thresholds_dom. cbn [RPS_THRESHOLDS default_config] in Hc.
    by rewrite Hc. }
  destruct (decide (k <= 5)) as [|Hgt]; [lia|]. exfalso.
  destruct (decide (c = 5)) as [->|Hc5].
  - cbn [RPS_THRESHOLDS default_config] in Hc. rewrite thr_5 in Hc.
    by injection Hc as <- <-.
  - apply (Hbefore 5); [lia|]. exists Infinity, (Fin 90). by split.
Qed.

(** C5: when the scale-up path triggers and the scan does not run off the
    table, the computation returns the smallest level above the current
    one whose scale-up threshold strictly exceeds the smoothed rate, and
    [MAX_REPLICAS] when there is none; the result may lie several levels
    above the current count.  For every configuration. *)
Theorem scale_up_returns_first_level (config : AutoscalerConfig) (c : Z)
    (x : Q) (up down : threshold) :
  RPS_THRESHOLDS config !! c = Some (up, down) ->
  rate_ge x up = true ->
  c < MAX_REPLICAS config ->
  scan_rows_present config c x ->
  exists r reason0,
    desired_replicas config c x = Ok (r, reason0) /\
    c < r <= MAX_REPLICAS config /\
    ((up_exceeds config r x /\
      forall r', c < r' < r -> ~ up_exceeds config r' x)
     \/ (r = MAX_REPLICAS config /\
         forall r', c < r' <= MAX_REPLICAS config ->
                    ~ up_exceeds config r' x)).
Proof.
  intros Hc Hge Hmax Hrows.
  assert (exists r reason0, desired_replicas config c x = Ok (r, reason0))
    as (r & reason0 & Hd).
  { unfold desired_replicas. rewrite Hc, Hge.
    assert ((c <? MAX_REPLICAS config) = true) as -> by (by apply Z.ltb_lt).
    cbn [andb]. unfold py_range. apply scan_up_reaches.
    intros k Hk Hbefore. apply Hrows; [lia|].
    intros j Hj. apply Hbefore. lia. }
  exists r, reason0. split; [done|].
  by apply (desired_replicas_scale_up config c x up down r reason0).
Qed.

Lemma scale_up_returns_first_level_witness :
  exists r reason0,
    desired_replicas three_level_config 1 (100 # 1) = Ok (r, reason0) /\
    1 < r <= MAX_REPLICAS three_level_config /\
    ((up_exceeds three_level_config r (100 # 1) /\
      forall r', 1 < r' < r -> ~ up_exceeds three_level_config r' (100 # 1))
     \/ (r = MAX_REPLICAS three_level_config /\
         forall r', 1 < r' <= MAX_REPLICAS three_level_config ->
                    ~ up_exceeds three_level_config r' (100 # 1))).
Proof.
  apply (scale_up_returns_first_level three_level_config 1 (100 # 1)
           (Fin 10) (Fin 0)).
  - reflexivity.
  - reflexivity.
  - reflexivity.
  - intros k Hk _. cbn in Hk.
    assert (k = 2 \/ k = 3) as [-> | ->] by lia; vm_compute; eauto.
Defined.

(** The two outcomes of the scan, evaluated: no level of the three-row
    table exceeds the rate 100, so [MAX_REPLICAS] is returned; with the
    source's table the rate 75 stops the scan at level 4. *)
Example scale_up_to_max :
  desired_replicas three_level_config 1 (100 # 1)
  = Ok (3, ReasonExceedsAll (100 # 1)).
Proof. reflexivity. Qed.

Example scale_up_source_table :
  exists r reason0,
    desired_replicas default_config 1 (75 # 1) = Ok (r, reason0) /\ r = 4.
Proof.
  destruct (scan_up_reaches default_config (75 # 1) (Fin 10) 2 9)
    as (r & reason0 & Hr).
  { intros k Hk Hbefore.
    apply (default_rows_present 1 (75 # 1) (Fin 10) (Fin 0));
      [reflexivity|reflexivity|cbn; lia|].
    intros j Hj. apply Hbefore. lia. }
  eexists _, _. split; reflexivity.
Qed.

(** * The batch driver: runs that return *)

(** C3: in every run of the batch driver that returns, two scaling actions
    applied to the state of one service lie at time buckets at least the
    cooldown period apart. *)
Theorem batch_cooldown_separation (df : list ReactiveModel.Row)
    (sim : ReactiveModel.Sim) :
  ReactiveModel.main default_config df = Ok sim ->
  forall (i j : nat) ei ej,
    (i < j)%nat ->
    ReactiveModel.events sim !! i = Some ei ->
    ReactiveModel.events sim !! j = Some ej ->
    ReactiveModel.ev_service ei = ReactiveModel.ev_service ej ->
    applied ei -> applied ej ->
    ReactiveModel.ev_time_bucket ei + COOLDOWN_PERIOD default_config
      <= ReactiveModel.ev_time_bucket ej.
Proof.
  intros Hmain.
  apply (run_cooldown default_config
           (ReactiveModel.grouped (ReactiveModel.dropna df)) sim);
    [cbn; lia|done].
Qed.

Lemma batch_cooldown_separation_witness :
  ReactiveModel.main default_config cooldown_dataset = Ok cooldown_sim /\
  exists ei ej,
    ReactiveModel.events cooldown_sim !! 0%nat = Some ei /\
    ReactiveModel.events cooldown_sim !! 2%nat = Some ej /\
    ReactiveModel.ev_service ei = ReactiveModel.ev_service ej /\
    applied ei /\ applied ej /\
    ReactiveModel.ev_time_bucket ei + COOLDOWN_PERIOD default_config
      <= ReactiveModel.ev_time_bucket ej.
Proof.
  assert (ReactiveModel.main default_config cooldown_dataset
          = Ok cooldown_sim) as Hmain by (vm_compute; reflexivity).
  split; [exact Hmain|].
  eexists _, _.
  split; [vm_compute; reflexivity|]. split; [vm_compute; reflexivity|].
  split; [reflexivity|]. split; [left; reflexivity|].
  split; [left; reflexivity|].
  apply (batch_cooldown_separation cooldown_dataset cooldown_sim Hmain
           0%nat 2%nat).
  - lia.
  - vm_compute. reflexivity.
  - vm_compute. reflexivity.
  - reflexivity.
  - left. reflexivity.
  - left. reflexivity.
Defined.

(** The run of the witness: applied at 60, blocked at 90, applied at 120. *)
Example cooldown_run :
  (fun e => (ReactiveModel.ev_time_bucket e, ReactiveModel.ev_action e,
             ReactiveModel.ev_new_replicas e))
    <$> ReactiveModel.events cooldown_sim
  = [(60, ReactiveModel.UPSCALE, 2); (90, ReactiveModel.BLOCKED, 2);
     (120, ReactiveModel.UPSCALE, 4)].
Proof. vm_compute. reflexivity. Qed.

(** Every event of a run that returns carries the smoothed rate that the
    smoothing update returns for its raw rate. *)
Lemma run_engine_fed (config : AutoscalerConfig)
    (rows : list (Z * string * Q)) (sim : ReactiveModel.Sim) :
  ReactiveModel.run config ReactiveModel.initial_sim rows = Ok sim ->
  engine_fed config (ReactiveModel.events sim).
Proof.
  intros Hrun.
  apply (run_invariant config
           (fun sim => trace_inv config sim
                       /\ engine_fed config (ReactiveModel.events sim)))
    in Hrun; [apply Hrun|..].
  - intros sim0 [[t s] v] sim1 [Htrace Hfed] Hrow.
    split; [by eapply process_row_trace|].
    destruct (process_row_decision _ _ _ _ _ _ Hrow)
      as (e & Hev & Hs & Hraw & Hsm & _).
    destruct (Htrace s) as (_ & _ & _ & Hlast & _).
    rewrite Hev. intros i e0 st Hi Hst.
    destruct (decide (i < length (ReactiveModel.events sim0))%nat)
      as [Hlt|Hge].
    + rewrite lookup_app_l in Hi by done.
      rewrite take_app_le in Hst by lia. by apply (Hfed i).
    + assert (i = length (ReactiveModel.events sim0)) as ->.
      { apply lookup_lt_Some in Hi. rewrite length_app in Hi. cbn in Hi.
        lia. }
      rewrite list_lookup_middle in Hi by done. injection Hi as <-.
      rewrite take_app_length, Hs, <- Hlast in Hst.
      unfold ReactiveModel.update_smoothed_rps. cbn [snd].
      by rewrite Hst, Hsm, Hraw.
  - split.
    + intros s. unfold state_of. cbn. by rewrite lookup_empty.
    + intros i e st Hi. done.
Qed.

(** C9: when rows of the dataset share an entity and a time bucket (one
    row or more, in particular two) and the batch driver returns, it has
    emitted exactly one result row for that pair; the raw rate of that row
    is the sum of the rates of those rows, and it is the rate the engine
    was called with: the smoothed rate of the row is the result of the
    smoothing update for that rate, and the row reports the hysteresis
    decision for that smoothed rate. *)
Theorem batch_aggregation (df : list ReactiveModel.Row) (b : Z) (it : string)
    (sim : ReactiveModel.Sim) :
  rates_of b it (ReactiveModel.dropna df) <> [] ->
  ReactiveModel.main default_config df = Ok sim ->
  exists (i : nat) ev,
    ReactiveModel.events sim !! i = Some ev /\
    filter (fun e => ReactiveModel.ev_time_bucket e = b /\
                     ReactiveModel.ev_service e = it)
           (ReactiveModel.events sim) = [ev] /\
    (ReactiveModel.ev_raw_rps ev
     == Qsum (rates_of b it (ReactiveModel.dropna df)))%Q /\
    (forall st : ReactiveModel.ServiceState,
       ReactiveModel.smoothed_rps st
       = default 0%Q
           (ReactiveModel.ev_smoothed_rps <$>
              last (events_of it (take i (ReactiveModel.events sim)))) ->
       ReactiveModel.ev_smoothed_rps ev
       = (ReactiveModel.update_smoothed_rps default_config st
            (ReactiveModel.ev_raw_rps ev)).2) /\
    decision_ok default_config ev.
Proof.
  intros Hrows Hmain. unfold ReactiveModel.main in Hmain.
  pose proof (run_events default_config _ _ _ Hmain) as Hev.
  cbn in Hev.
  destruct (grouped_spec (ReactiveModel.dropna df)) as [Hsorted Hkeys].
  destruct (Hkeys b it) as [_ Hsome].
  destruct (Hsome Hrows) as (total & Hin & Htotal).
  rewrite <- Hev in Hin, Hsorted.
  apply list_elem_of_fmap in Hin as (ev & Hinput & Hin).
  pose proof Hin as Hin'.
  apply list_elem_of_lookup in Hin' as [i Hi].
  assert (ReactiveModel.ev_service ev = it) as Hit.
  { unfold event_input in Hinput. by injection Hinput as _ <- _. }
  exists i, ev. split; [done|]. split; [|split; [|split]].
  - transitivity (filter (fun e => (event_input e).1 = (b, it))
                    (ReactiveModel.events sim)).
    + apply list_filter_iff. intros e. unfold event_input. cbn.
      split; [by intros [-> ->]|by intros [= -> ->]].
    + apply filter_unique_key; [|done|by rewrite <- Hinput].
      rewrite <- list_fmap_compose in Hsorted.
      exact (sorted_keys_NoDup _ Hsorted).
  - rewrite <- Htotal. unfold event_input in Hinput.
    by injection Hinput as _ _ ->.
  - intros st Hst. apply (run_engine_fed default_config _ sim Hmain i ev st).
    + done.
    + by rewrite Hit.
  - pose proof (run_decisions default_config _ sim Hmain) as Hall.
    rewrite Forall_forall in Hall. by apply Hall.
Qed.

Lemma batch_aggregation_witness :
  exists (i : nat) ev,
    ReactiveModel.events sample_sim !! i = Some ev /\
    filter (fun e => ReactiveModel.ev_time_bucket e = 0 /\
                     ReactiveModel.ev_service e = "web")
           (ReactiveModel.events sample_sim) = [ev] /\
    (ReactiveModel.ev_raw_rps ev
     == Qsum (rates_of 0 "web" (ReactiveModel.dropna sample_dataset)))%Q /\
    (forall st : ReactiveModel.ServiceState,
       ReactiveModel.smoothed_rps st
       = default 0%Q
           (ReactiveModel.ev_smoothed_rps <$>
              last (events_of "web"
                      (take i (ReactiveModel.events sample_sim)))) ->
       ReactiveModel.ev_smoothed_rps ev
       = (ReactiveModel.update_smoothed_rps default_config st
            (ReactiveModel.ev_raw_rps ev)).2) /\
    decision_ok default_config ev.
Proof.
  apply (batch_aggregation sample_dataset 0 "web" sample_sim).
  - vm_compute. discriminate.
  - vm_compute. reflexivity.
Defined.

(** * Lazily created states *)



(** * Further properties of the batch driver: runs that return *)

(** X8: for a timestamp below 2^53 in absolute value, where floats hold
    the integers exactly, the time bucket is a multiple of the control
    interval, it is the start of the interval of 30 seconds that contains
    the timestamp, and a bucket is its own bucket. *)
Theorem time_bucket_bounds (t : Q) :
  (- inject_Z exact_integer_bound < t < inject_Z exact_integer_bound)%Q ->
  (ReactiveModel.CONTROL_INTERVAL | ReactiveModel.time_bucket t) /\
  (inject_Z (ReactiveModel.time_bucket t) <= t
   < inject_Z (ReactiveModel.time_bucket t + ReactiveModel.CONTROL_INTERVAL))%Q
  /\ ReactiveModel.time_bucket (inject_Z (ReactiveModel.time_bucket t))
     = ReactiveModel.time_bucket t.
Proof.
  intros _.
  unfold ReactiveModel.time_bucket, ReactiveModel.CONTROL_INTERVAL.
  set (f := Qfloor (t / inject_Z 30)). split; [by exists f|].
  pose proof (Qfloor_le (t / inject_Z 30)) as Hle.
  pose proof (Qlt_floor (t / inject_Z 30)) as Hlt.
  fold f in Hle, Hlt. rewrite inject_Z_plus in Hlt.
  assert (t == t / inject_Z 30 * 30)%Q as Ht by (field; done).
  rewrite inject_Z_plus, inject_Z_mult.
  change (inject_Z 30) with 30%Q in *. change (inject_Z 1) with 1%Q in *.
  split; [split; lra|].
  assert (inject_Z f * 30 / 30 == inject_Z f)%Q as Hf by (field; done).
  by rewrite (Qfloor_comp _ _ Hf), Qfloor_Z.
Qed.

Lemma time_bucket_bounds_witness :
  (ReactiveModel.CONTROL_INTERVAL | ReactiveModel.time_bucket (125 # 2)) /\
  (inject_Z (ReactiveModel.time_bucket (125 # 2)) <= 125 # 2
   < inject_Z (ReactiveModel.time_bucket (125 # 2)
               + ReactiveModel.CONTROL_INTERVAL))%Q
  /\ ReactiveModel.time_bucket
       (inject_Z (ReactiveModel.time_bucket (125 # 2)))
     = ReactiveModel.time_bucket (125 # 2).
Proof.
  apply (time_bucket_bounds (125 # 2)).
  split; vm_compute; reflexivity.
Defined.

(** The bucket of 62.5 is 60. *)
Example time_bucket_sample : ReactiveModel.time_bucket (125 # 2) = 60.
Proof. reflexivity. Qed.

(** X9: when the batch driver returns, the counters of the printed summary
    agree with the result table: the numbers of upscales, downscales and
    blocked decisions are the numbers of result rows with that action, the
    total of scaling actions is the sum of the first two, and there is one
    result row per row of the grouped table.  For every configuration. *)
Theorem batch_summary_counts (config : AutoscalerConfig)
    (df : list ReactiveModel.Row) (sim : ReactiveModel.Sim) :
  ReactiveModel.main config df = Ok sim ->
  ReactiveModel.upscales sim
    = count_action ReactiveModel.UPSCALE (ReactiveModel.events sim) /\
  ReactiveModel.downscales sim
    = count_action ReactiveModel.DOWNSCALE (ReactiveModel.events sim) /\
  ReactiveModel.cooldown_blocks sim
    = count_action ReactiveModel.BLOCKED (ReactiveModel.events sim) /\
  ReactiveModel.total_scales sim
    = ReactiveModel.upscales sim + ReactiveModel.downscales sim /\
  length (ReactiveModel.events sim)
    = length (ReactiveModel.grouped (ReactiveModel.dropna df)).
Proof.
  intros Hmain. unfold ReactiveModel.main in Hmain.
  pose proof (run_events config _ _ _ Hmain) as Hev.
  apply (f_equal length) in Hev. rewrite length_fmap in Hev. cbn in Hev.
  apply (run_invariant config counters_inv) in Hmain.
  - destruct Hmain as (? & ? & ? & ?). done.
  - intros sim0 row sim1 Hinv Hrow.
    by apply (process_row_counters config sim0 sim1 row).
  - done.
Qed.

Lemma batch_summary_counts_witness :
  ReactiveModel.upscales cooldown_sim
    = count_action ReactiveModel.UPSCALE (ReactiveModel.events cooldown_sim)
  /\
  ReactiveModel.downscales cooldown_sim
    = count_action ReactiveModel.DOWNSCALE
        (ReactiveModel.events cooldown_sim) /\
  ReactiveModel.cooldown_blocks cooldown_sim
    = count_action ReactiveModel.BLOCKED (ReactiveModel.events cooldown_sim)
  /\
  ReactiveModel.total_scales cooldown_sim
    = ReactiveModel.upscales cooldown_sim
      + ReactiveModel.downscales cooldown_sim /\
  length (ReactiveModel.events cooldown_sim)
    = length (ReactiveModel.grouped (ReactiveModel.dropna cooldown_dataset)).
Proof.
  apply (batch_summary_counts default_config cooldown_dataset cooldown_sim).
  vm_compute. reflexivity.
Defined.

(** The summary of the run of [cooldown_dataset]: two upscales and one
    blocked decision. *)
Example cooldown_summary :
  (ReactiveModel.total_scales cooldown_sim, ReactiveModel.upscales cooldown_sim,
   ReactiveModel.downscales cooldown_sim,
   ReactiveModel.cooldown_blocks cooldown_sim) = (2, 2, 0, 1).
Proof. vm_compute. reflexivity. Qed.

(** X10: when the batch driver returns, the rows of one service in the
    result table form a legal run of the cooldown machine started with one
    replica and last-scale time 0: each row starts at the replica count the
    previous one ended with; an UPSCALE raises and a DOWNSCALE lowers the
    count and lies at least the cooldown period after the last applied
    action (after time 0 when there is none); a BLOCKED row keeps the count
    and lies less than the cooldown period after it; a NO_CHANGE row keeps
    the count.  For every configuration. *)
Theorem batch_log_is_legal (config : AutoscalerConfig)
    (df : list ReactiveModel.Row) (sim : ReactiveModel.Sim) (s : string) :
  ReactiveModel.main config df = Ok sim ->
  trace_ok (COOLDOWN_PERIOD config) (1, 0)
    (events_of s (ReactiveModel.events sim)).
Proof.
  intros Hmain. apply run_trace in Hmain. by destruct (Hmain s) as (? & _).
Qed.

Lemma batch_log_is_legal_witness :
  trace_ok (COOLDOWN_PERIOD default_config) (1, 0)
    (events_of "web" (ReactiveModel.events cooldown_sim)).
Proof.
  apply (batch_log_is_legal default_config cooldown_dataset cooldown_sim "web").
  vm_compute. reflexivity.
Defined.

(** X11: when the batch driver returns, the state kept for a service agrees
    with its rows of the result table: its history has one entry per row,
    with the row's bucket, new replica count, smoothed rate and reason, in
    order; its replica count is the new count of the last row; its raw and
    smoothed rate are those of the last row; a service without a row has
    the initial state.  For every configuration. *)
Theorem batch_state_matches_log (config : AutoscalerConfig)
    (df : list ReactiveModel.Row) (sim : ReactiveModel.Sim) (s : string) :
  ReactiveModel.main config df = Ok sim ->
  ReactiveModel.scale_history (state_of sim s)
    = event_entry <$> events_of s (ReactiveModel.events sim) /\
  ReactiveModel.current_replicas (state_of sim s)
    = default 1 (ReactiveModel.ev_new_replicas <$>
                   last (events_of s (ReactiveModel.events sim))) /\
  ReactiveModel.smoothed_rps (state_of sim s)
    = default 0%Q (ReactiveModel.ev_smoothed_rps <$>
                     last (events_of s (ReactiveModel.events sim))) /\
  ReactiveModel.raw_rps (state_of sim s)
    = default 0%Q (ReactiveModel.ev_raw_rps <$>
                     last (events_of s (ReactiveModel.events sim))).
Proof.
  intros Hmain. apply run_trace in Hmain.
  destruct (Hmain s) as (Htrace & Hend & Hh & Hsm & Hraw).
  split; [done|]. split; [|done].
  revert Htrace Hend.
  generalize (ReactiveModel.current_replicas (state_of sim s)).
  generalize (ReactiveModel.last_scale_time (state_of sim s)).
  generalize (events_of s (ReactiveModel.events sim)).
  intros evs. induction evs as [|e evs IH] using rev_ind; intros L c.
  - cbn. by intros _ [= <- _].
  - rewrite trace_ok_snoc, foldl_snoc, last_snoc. cbn.
    intros [_ [Hprev Hact]].
    destruct (foldl event_step (1, 0) evs) as [c0 L0] eqn:Hfold.
    unfold event_step. cbn in Hprev, Hact.
    destruct (ReactiveModel.ev_action e); intros [= <- _]; try done;
      by destruct Hact.
Qed.

Lemma batch_state_matches_log_witness :
  ReactiveModel.scale_history (state_of cooldown_sim "web")
    = event_entry <$> events_of "web" (ReactiveModel.events cooldown_sim) /\
  ReactiveModel.current_replicas (state_of cooldown_sim "web")
    = default 1 (ReactiveModel.ev_new_replicas <$>
                   last (events_of "web" (ReactiveModel.events cooldown_sim)))
  /\
  ReactiveModel.smoothed_rps (state_of cooldown_sim "web")
    = default 0%Q (ReactiveModel.ev_smoothed_rps <$>
                     last (events_of "web"
                             (ReactiveModel.events cooldown_sim))) /\
  ReactiveModel.raw_rps (state_of cooldown_sim "web")
    = default 0%Q (ReactiveModel.ev_raw_rps <$>
                     last (events_of "web"
                             (ReactiveModel.events cooldown_sim))).
Proof.
  apply (batch_state_matches_log default_config cooldown_dataset
           cooldown_sim "web").
  vm_compute. reflexivity.
Defined.

(** X12: when the batch driver returns, the result table is in ascending
    order of time bucket and, within a bucket, of service name, without
    repetition: of two rows the later one has a later bucket, or the same
    bucket and a greater name.  For every configuration. *)
Theorem batch_events_ascending (config : AutoscalerConfig)
    (df : list ReactiveModel.Row) (sim : ReactiveModel.Sim) :
  ReactiveModel.main config df = Ok sim ->
  forall (i j : nat) ei ej,
    (i < j)%nat ->
    ReactiveModel.events sim !! i = Some ei ->
    ReactiveModel.events sim !! j = Some ej ->
    ReactiveModel.ev_time_bucket ei < ReactiveModel.ev_time_bucket ej \/
    (ReactiveModel.ev_time_bucket ei = ReactiveModel.ev_time_bucket ej /\
     String.compare (ReactiveModel.ev_service ei)
                    (ReactiveModel.ev_service ej) = Lt).
Proof.
  intros Hmain. unfold ReactiveModel.main in Hmain.
  pose proof (run_events config _ _ _ Hmain) as Hev. cbn in Hev.
  destruct (grouped_spec (ReactiveModel.dropna df)) as [Hsorted _].
  rewrite <- Hev in Hsorted. intros i j ei ej Hij Hi Hj.
  apply key_lt_cases. rewrite <- list_fmap_compose in Hsorted.
  apply (sorted_lookup _ i j _ _ Hsorted Hij);
    rewrite list_lookup_fmap; [by rewrite Hi|by rewrite Hj].
Qed.

Lemma batch_events_ascending_witness :
  ReactiveModel.main default_config sample_dataset = Ok sample_sim /\
  exists ei ej,
    ReactiveModel.events sample_sim !! 0%nat = Some ei /\
    ReactiveModel.events sample_sim !! 1%nat = Some ej /\
    (ReactiveModel.ev_time_bucket ei < ReactiveModel.ev_time_bucket ej \/
     (ReactiveModel.ev_time_bucket ei = ReactiveModel.ev_time_bucket ej /\
      String.compare (ReactiveModel.ev_service ei)
                     (ReactiveModel.ev_service ej) = Lt)).
Proof.
  assert (ReactiveModel.main default_config sample_dataset = Ok sample_sim)
    as Hmain by (vm_compute; reflexivity).
  split; [exact Hmain|].
  eexists _, _.
  split; [vm_compute; reflexivity|]. split; [vm_compute; reflexivity|].
  apply (batch_events_ascending default_config sample_dataset sample_sim
           Hmain 0%nat 1%nat).
  - lia.
  - vm_compute. reflexivity.
  - vm_compute. reflexivity.
Defined.

(** X14: the keys of the grouped table do not depend on the order of the
    rows of the dataset: two datasets with the same rows in any order are
    grouped into the same (bucket, entity) pairs in the same order. *)
Theorem grouped_keys_order_independent (df df' : list ReactiveModel.Row) :
  df ≡ₚ df' ->
  (ReactiveModel.grouped (ReactiveModel.dropna df)).*1
    = (ReactiveModel.grouped (ReactiveModel.dropna df')).*1.
Proof.
  intros Hdf.
  assert (ReactiveModel.dropna df ≡ₚ ReactiveModel.dropna df') as Hrows.
  { unfold ReactiveModel.dropna. by rewrite Hdf. }
  set (rows := ReactiveModel.dropna df) in *.
  set (rows' := ReactiveModel.dropna df') in *.
  assert (forall b it, rates_of b it rows ≡ₚ rates_of b it rows') as Hrates.
  { intros b it. unfold rates_of. by rewrite Hrows. }
  destruct (grouped_spec rows) as [Hs _].
  destruct (grouped_spec rows') as [Hs' _].
  apply (StronglySorted_unique_strong key_lt); [|done|done|].
  - intros k1 k2 _ _ H12 H21. exfalso. apply (key_lt_irrefl k1).
    exact (key_lt_trans k1 k2 k1 H12 H21).
  - apply NoDup_Permutation; [by apply sorted_keys_NoDup..|].
    intros [b it]. rewrite !grouped_key_iff.
    split; intros Hne Hnil; apply Hne.
    + apply Permutation_nil_r. by rewrite (Hrates b it), Hnil.
    + apply Permutation_nil_r. by rewrite <- (Hrates b it), Hnil.
Qed.

Lemma grouped_keys_order_independent_witness :
  (ReactiveModel.grouped (ReactiveModel.dropna sample_dataset)).*1
    = (ReactiveModel.grouped
         (ReactiveModel.dropna (reverse sample_dataset))).*1.
Proof.
  apply (grouped_keys_order_independent sample_dataset
           (reverse sample_dataset)).
  symmetry. apply reverse_Permutation.
Defined.

(** X21: when the batch driver returns, the smoothed rates of the rows of
    one service in the result table are the smoothing of the raw rates of
    those rows, in order, started from a fresh state: the smoothing of a
    service is not disturbed by the rows of other services in between.
    For every configuration. *)
Theorem batch_smoothed_column (config : AutoscalerConfig)
    (df : list ReactiveModel.Row) (sim : ReactiveModel.Sim) (s : string) :
  ReactiveModel.main config df = Ok sim ->
  ReactiveModel.ev_smoothed_rps <$> events_of s (ReactiveModel.events sim)
  = ReactiveModel.smoothed_rps <$>
      feed (ReactiveModel.update_smoothed_rps config)
        ReactiveModel.new_state
        (ReactiveModel.ev_raw_rps <$>
           events_of s (ReactiveModel.events sim)).
Proof.
  intros Hmain. exact (run_smoothed config _ sim Hmain s).
Qed.

Lemma batch_smoothed_column_witness :
  ReactiveModel.ev_smoothed_rps
    <$> events_of "web" (ReactiveModel.events cooldown_sim)
  = ReactiveModel.smoothed_rps <$>
      feed (ReactiveModel.update_smoothed_rps default_config)
        ReactiveModel.new_state
        (ReactiveModel.ev_raw_rps <$>
           events_of "web" (ReactiveModel.events cooldown_sim)).
Proof.
  apply (batch_smoothed_column default_config cooldown_dataset
           cooldown_sim "web").
  vm_compute. reflexivity.
Defined.

(** X22: when the batch driver returns, every row of the result table
    reports the hysteresis decision for its previous replica count and its
    smoothed rate: UPSCALE and DOWNSCALE rows move to the decided count and
    carry the reason of the decision, a BLOCKED row had decided another
    count and carries the cooldown reason, a NO_CHANGE row had decided the
    count it has.  For every configuration. *)
Theorem batch_decisions_follow_hysteresis (config : AutoscalerConfig)
    (df : list ReactiveModel.Row) (sim : ReactiveModel.Sim) :
  ReactiveModel.main config df = Ok sim ->
  Forall (decision_ok config) (ReactiveModel.events sim).
Proof.
  intros Hmain. exact (run_decisions config _ sim Hmain).
Qed.

Lemma batch_decisions_follow_hysteresis_witness :
  Forall (decision_ok default_config) (ReactiveModel.events cooldown_sim).
Proof.
  apply (batch_decisions_follow_hysteresis default_config cooldown_dataset
           cooldown_sim).
  vm_compute. reflexivity.
Defined.

(** X23: when the batch driver returns with the source's configuration,
    every previous and every new replica count of the result table is a
    row of the threshold table, 1 to 5: the batch driver does not go above
    5 replicas although [MAX_REPLICAS] is 10. *)
Theorem batch_replicas_in_table (df : list ReactiveModel.Row)
    (sim : ReactiveModel.Sim) :
  ReactiveModel.main default_config df = Ok sim ->
  Forall event_in_table (ReactiveModel.events sim).
Proof.
  intros Hmain. unfold ReactiveModel.main in Hmain.
  apply (run_invariant default_config
           (fun sim => replicas_in_table sim
                       /\ Forall event_in_table (ReactiveModel.events sim)))
    in Hmain; [apply Hmain|..].
  - intros sim0 [[t s] v] sim1 [Htable Hall] Hrow.
    pose proof (process_row_in_table _ _ _ Htable Hrow) as Htable1.
    split; [done|].
    apply process_row_Ok in Hrow
      as (st' & e & Hst & -> & _ & Hprev & Hnew & _).
    apply Forall_app. split; [done|]. constructor; [|constructor]. split.
    + rewrite Hprev. by apply state_of_in_table.
    + rewrite Hnew. apply (Htable1 s). rewrite Hst. apply lookup_insert_eq.
  - split; [apply initial_in_table|constructor].
Qed.

Lemma batch_replicas_in_table_witness :
  Forall event_in_table (ReactiveModel.events cooldown_sim).
Proof.
  apply (batch_replicas_in_table cooldown_dataset cooldown_sim).
  vm_compute. reflexivity.
Defined.
